(** * producer.go: the producer side of the memphis client

    A shallow embedding of [src/producer.go].  Go code that touches the
    connection, the heap or the transport is written in a small monad [Go]
    over an explicit [World]; a call either returns, panics or blocks for
    ever.  Code of the client that lives outside [producer.go] (the relay
    registry, the request and publish primitives of the broker connection,
    the JSON decoder, the schema validator) is taken through the interface
    [Externals]. *)

From Stdlib Require Import ZArith String Ascii List Lia Strings.Byte.
From stdpp Require Import base option gmap strings list fin_maps.

Local Open Scope string_scope.
Local Open Scope Z_scope.

(** ** Go values *)

(** A Go [error]: [None] is [nil], [Some s] an error whose message is [s]
    (the value built by [errors.New(s)]). *)
Definition error : Type := option string.

Definition errors_New (text : string) : error := Some text.

(** A value of interface type [any], by its dynamic type.  Only [[]byte] is
    told apart by the code; the other constructors stand for the rest. *)
Inductive any : Type :=
| AnyNil
| AnyBytes (b : list byte)
| AnyString (s : string)
| AnyInt (n : Z)
| AnyStruct (typeName : string) (fields : list byte).

(** [time.Duration] is an [int64] count of nanoseconds. *)
Definition Duration : Type := Z.

Definition wrap64 (z : Z) : Z := (z + 2 ^ 63) mod 2 ^ 64 - 2 ^ 63.

Definition time_Second : Duration := 1000000000.

(** [a * b] on [time.Duration]: [int64] multiplication, which wraps. *)
Definition Duration_mul (a b : Duration) : Duration := wrap64 (a * b).

(** [time.Duration(n)] for [n] an [int] (64 bits wide). *)
Definition Duration_of_int (n : Z) : Duration := wrap64 n.

(** [fmt.Sprintf(format, arg)] for a format whose only verb is one [%s]. *)
Fixpoint Sprintf (format : string) (arg : string) : string :=
  match format with
  | EmptyString => EmptyString
  | String c rest =>
      match rest with
      | String d rest' =>
          if (Ascii.eqb c "%" && Ascii.eqb d "s")%bool
          then arg +:+ rest'
          else String c (Sprintf rest arg)
      | EmptyString => String c EmptyString
      end
  end.

(** ** Data model (lines 31-90 and 196-206) *)

Definition schemaUpdatesSubjectTemplate : string := "$memphis_schema_updates_%s".

Module SchemaVersion.
Record t : Type := {
  VersionNumber : Z;
  Descriptor : string;
  MessageStructName : string
}.
End SchemaVersion.

Module SchemaUpdateInit.
Record t : Type := {
  SchemaName : string;
  Versions : list SchemaVersion.t;
  ActiveVersionIdx : Z;
  SchemaType : string
}.
End SchemaUpdateInit.

(** [type SchemaUpdateType int], with [iota + 1] numbering. *)
Definition SchemaUpdateType : Type := Z.
Definition SchemaUpdateTypeInit : SchemaUpdateType := 0 + 1.
Definition SchemaUpdateTypeDrop : SchemaUpdateType := 1 + 1.

Module SchemaUpdate.
Record t : Type := {
  UpdateType : SchemaUpdateType;
  Init : SchemaUpdateInit.t
}.
End SchemaUpdate.

Module createProducerReq.
Record t : Type := {
  Name : string;
  StationName : string;
  ConnectionId : string;
  ProducerType : string
}.
End createProducerReq.

Module createProducerResp.
Record t : Type := {
  SchemaUpdateInit : SchemaUpdateInit.t;
  Err : string
}.
End createProducerResp.

Module removeProducerReq.
Record t : Type := {
  Name : string;
  StationName : string
}.
End removeProducerReq.

(** The request bodies handed to the connection as [any]. *)
Inductive request : Type :=
| CreationReq (r : createProducerReq.t)
| DestructionReq (r : removeProducerReq.t).

Module ProducerOpts.
Record t : Type := { GenUniqueSuffix : bool }.
End ProducerOpts.

(** [ProducerOpt], a function on a pointer to the options that returns an
    error: the options after the call, and the error. *)
Definition ProducerOpt : Type := ProducerOpts.t -> ProducerOpts.t * error.

(** A Go map is a reference: [nil], or the address of a table on the heap. *)
Definition loc : Type := positive.

Module Headers.
Record t : Type := { MsgHeaders : option loc }.
End Headers.

Module ProduceOpts.
Record t : Type := {
  Message : any;
  AckWaitSec : Z;
  MsgHeaders : Headers.t;
  AsyncProduce : bool
}.
End ProduceOpts.

Definition ProduceOpt : Type := ProduceOpts.t -> ProduceOpts.t * error.

(** The producer: [conn] points to the one connection of the [World]. *)
Module Producer.
Record t : Type := {
  Name : string;
  stationName : string
}.
End Producer.

(** [nats.Msg], with the header table as it stands when the message is
    handed to the transport. *)
Module Msg.
Record t : Type := {
  Header : gmap string (list string);
  Subject : string;
  Data : list byte
}.
End Msg.

(** [nats.PubAckFuture]: what its [Ok()] and [Err()] channels deliver. *)
Inductive PubAckFuture : Type :=
| AckOk
| AckErr (err : error)
| AckPending.

(** ** The world *)

(** The entry of [c.stationUpdatesSubs] for a station; [schemaUpdateCh] is
    the sequence of values sent on the channel, oldest first. *)
Record stationUpdateSub : Type := {
  schemaUpdateCh : list SchemaUpdate.t
}.

(** What went over the broker connection, in order. *)
Inductive Call : Type :=
| CallListen (station : string)
| CallRemoveListener (station : string)
| CallRequest (subject : string) (req : request)
| CallPublish (msg : Msg.t) (stallWait : Duration).

Record Conn : Type := {
  ConnId : string;
  stationUpdatesSubs : gmap string stationUpdateSub;
  brokerConn : list Call
}.

Record World : Type := {
  conn : Conn;
  maps : gmap loc (gmap string (list string));
  entropy : list byte
}.

Definition set_conn (c : Conn) (w : World) : World :=
  {| conn := c; maps := maps w; entropy := entropy w |}.

Definition set_maps (h : gmap loc (gmap string (list string))) (w : World) : World :=
  {| conn := conn w; maps := h; entropy := entropy w |}.

Definition set_entropy (e : list byte) (w : World) : World :=
  {| conn := conn w; maps := maps w; entropy := e |}.

Definition set_subs (s : gmap string stationUpdateSub) (c : Conn) : Conn :=
  {| ConnId := ConnId c; stationUpdatesSubs := s; brokerConn := brokerConn c |}.

Definition log_call (ev : Call) (c : Conn) : Conn :=
  {| ConnId := ConnId c; stationUpdatesSubs := stationUpdatesSubs c;
     brokerConn := brokerConn c ++ [ev] |}.

(** ** The monad of Go calls *)

Inductive outcome (A : Type) : Type :=
| Returned (a : A)
| Panicked (v : string)
| Blocked.
Arguments Returned {A} a.
Arguments Panicked {A} v.
Arguments Blocked {A}.

Definition Go (A : Type) : Type := World -> outcome A * World.

#[global] Instance Go_ret : MRet Go := fun A a w => (Returned a, w).

#[global] Instance Go_bind : MBind Go := fun A B k m w =>
  match m w with
  | (Returned a, w') => k a w'
  | (Panicked v, w') => (Panicked v, w')
  | (Blocked, w') => (Blocked, w')
  end.

Definition panic {A : Type} (v : string) : Go A := fun w => (Panicked v, w).
Definition block {A : Type} : Go A := fun w => (Blocked, w).
Definition getConn : Go Conn := fun w => (Returned (conn w), w).

(** [make(map[string][]string)]: a new, empty table. *)
Definition make_map : Go (option loc) := fun w =>
  let l := fresh (dom (maps w)) in
  (Returned (Some l), set_maps (<[l := ∅]> (maps w)) w).

(** [m[key] = value]: writing through a nil map panics. *)
Definition mapassign (m : option loc) (key : string) (value : list string) : Go unit :=
  fun w =>
    match m with
    | None => (Panicked "assignment to entry in nil map", w)
    | Some l => (Returned tt, set_maps (alter (insert key value) l (maps w)) w)
    end.

(** The contents of a map; a nil map reads as empty. *)
Definition mapread (m : option loc) : Go (gmap string (list string)) := fun w =>
  (Returned (match m with
             | None => ∅
             | Some l => default ∅ (maps w !! l)
             end), w).

(** ** Headers (lines 233-252) *)

Definition validateHeaderKey (hdr : Headers.t) (key : string) : error :=
  if String.prefix "$memphis" key
  then errors_New "Keys in headers should not start with $memphis"
  else None.

Definition New (hdr : Headers.t) : Go Headers.t :=
  m ← make_map; mret {| Headers.MsgHeaders := m |}.

Definition Add (hdr : Headers.t) (key value : string) : Go error :=
  let err := validateHeaderKey hdr key in
  match err with
  | Some _ => mret err
  | None =>
      mapassign (Headers.MsgHeaders hdr) key [value];;
      mret None
  end.

(** ** Code of the client outside producer.go *)

(** The methods of [Conn] and the helpers that [producer.go] calls but does
    not define, as parameters.  Each sees the connection as it stands,
    with the record of what went over it so far. *)
Class Externals : Type := {
  (** the type [schemaDetails] and its field [schemaType] *)
  schemaDetails : Type;
  schemaType : schemaDetails -> string;
  (** [c.getSchemaDetails(stationName)] *)
  Conn_getSchemaDetails : Conn -> string -> schemaDetails * error;
  (** [sd.validateProtoMsg(msg)] *)
  validateProtoMsg : schemaDetails -> any -> list byte * error;
  (** [getInternalName(stationName)] *)
  getInternalName : string -> string;
  (** [json.Unmarshal(resp, cr)] on a zeroed [createProducerResp] *)
  json_Unmarshal : list byte -> createProducerResp.t * error;
  (** [c.listenToSchemaUpdates(stationName)]: its error and the registry
      [c.stationUpdatesSubs] it leaves *)
  relayListen : Conn -> string -> error * gmap string stationUpdateSub;
  (** [c.removeSchemaUpdatesListener(stationName)], likewise *)
  relayRemove : Conn -> string -> error * gmap string stationUpdateSub;
  (** the broker's answer to a request on a subject: reply bytes and error *)
  transportRequest : Conn -> string -> request -> list byte * error;
  (** the transport's answer to a publish: the future and the
      submission error *)
  transportPublish : Conn -> Msg.t -> Duration -> PubAckFuture * error
}.

(** [hex.EncodeToString]: two lower-case digits per byte. *)
Definition hexDigit (n : N) : ascii :=
  match String.get (N.to_nat n) "0123456789abcdef" with
  | Some c => c
  | None => "0"%char
  end.

Definition hexEncodeByte (b : byte) : string :=
  String (hexDigit (Byte.to_N b / 16)%N)
    (String (hexDigit (Byte.to_N b mod 16)%N) EmptyString).

Fixpoint hex_EncodeToString (src : list byte) : string :=
  match src with
  | [] => EmptyString
  | b :: rest => hexEncodeByte b +:+ hex_EncodeToString rest
  end.

(** Modelled from the spec: [randomHex] is called at line 98 and defined
    outside [src/].  The spec (4.3 step 2, section 8) has it yield a short
    random hexadecimal suffix, 8 hex characters for the 4 bytes asked for
    here, unless the random source fails.  The source of randomness is the
    [entropy] of the world: [n] bytes are taken from it and hex-encoded; a
    source that cannot deliver [n] bytes is the failure. *)
Definition randomHex (n : nat) : Go (string * error) := fun w =>
  if decide (n <= length (entropy w))%nat
  then (Returned (hex_EncodeToString (take n (entropy w)), None),
        set_entropy (drop n (entropy w)) w)
  else (Returned (EmptyString, errors_New "unexpected EOF"), w).

Section WithExternals.
Context `{Ext : Externals}.

(** [c.listenToSchemaUpdates(stationName)] *)
Definition listenToSchemaUpdates (stationName : string) : Go error := fun w =>
  let '(err, subs) := relayListen (conn w) stationName in
  (Returned err,
   set_conn (set_subs subs (log_call (CallListen stationName) (conn w))) w).

(** [c.removeSchemaUpdatesListener(stationName)] *)
Definition removeSchemaUpdatesListener (stationName : string) : Go error := fun w =>
  let '(err, subs) := relayRemove (conn w) stationName in
  (Returned err,
   set_conn (set_subs subs (log_call (CallRemoveListener stationName) (conn w))) w).

(** A synchronous request on a control subject. *)
Definition brokerRequest (subject : string) (req : request) : Go (list byte * error) :=
  fun w =>
    (Returned (transportRequest (conn w) subject req),
     set_conn (log_call (CallRequest subject req) (conn w)) w).

(** [c.brokerPublish(msg, nats.StallWait(stallWait))] *)
Definition brokerPublish (msg : Msg.t) (stallWait : Duration)
  : Go (PubAckFuture * error) :=
  fun w =>
    (Returned (transportPublish (conn w) msg stallWait),
     set_conn (log_call (CallPublish msg stallWait) (conn w)) w).

(** [ch <- v] on [c.stationUpdatesSubs[stationName].schemaUpdateCh]: the
    value joins those sent on the channel of the station.  The declaration
    of the registry is outside [src/]; its entries are taken to be pointers,
    so that without an entry for the station the field access dereferences
    nil.  (Were they structs, the send would be on a nil channel and block:
    either way the call does not return.) *)
Definition chan_send (stationName : string) (v : SchemaUpdate.t) : Go unit := fun w =>
  match stationUpdatesSubs (conn w) !! stationName with
  | None => (Panicked "invalid memory address or nil pointer dereference", w)
  | Some sub =>
      (Returned tt,
       set_conn (set_subs (<[stationName :=
                    {| schemaUpdateCh := schemaUpdateCh sub ++ [v] |}]>
                    (stationUpdatesSubs (conn w))) (conn w)) w)
  end.

(** ** Producer creation (lines 92-178) *)

Definition getDefaultProducerOpts : ProducerOpts.t :=
  {| ProducerOpts.GenUniqueSuffix := false |}.

Definition extendNameWithRandSuffix (name : string) : Go (string * error) :=
  '(suffix, err) ← randomHex 4;
  match err with
  | Some _ => mret (EmptyString, err)
  | None => mret (name +:+ "_" +:+ suffix, err)
  end.

Definition getCreationSubject (p : Producer.t) : string :=
  "$memphis_producer_creations".

Definition getCreationReq (p : Producer.t) (c : Conn) : request :=
  CreationReq {| createProducerReq.Name := Producer.Name p;
                 createProducerReq.StationName := Producer.stationName p;
                 createProducerReq.ConnectionId := ConnId c;
                 createProducerReq.ProducerType := "application" |}.

Definition handleCreationResp (p : Producer.t) (resp : list byte) : Go error :=
  let '(cr, err) := json_Unmarshal resp in
  match err with
  | Some _ => mret err
  | None =>
      if decide (createProducerResp.Err cr <> EmptyString)
      then mret (errors_New (createProducerResp.Err cr))
      else
        chan_send (Producer.stationName p)
          {| SchemaUpdate.UpdateType := SchemaUpdateTypeInit;
             SchemaUpdate.Init := createProducerResp.SchemaUpdateInit cr |};;
        mret None
  end.

(** Modelled from the spec: [c.create(&p)] is called at line 133 and defined
    outside [src/].  The spec (4.3 steps 4-6) has it send the creation
    request of the producer on the creation subject, wait for the response
    and hand the response to [handleCreationResp]; a request that fails is
    the error. *)
Definition create (p : Producer.t) : Go error :=
  c ← getConn;
  '(resp, err) ← brokerRequest (getCreationSubject p) (getCreationReq p c);
  match err with
  | Some _ => mret err
  | None => handleCreationResp p resp
  end.

(** The loop over [opts] of lines 109-113; calling a nil option panics. *)
Fixpoint applyProducerOpts (opts : list (option ProducerOpt))
    (defaultOpts : ProducerOpts.t) : Go (ProducerOpts.t * error) :=
  match opts with
  | [] => mret (defaultOpts, None)
  | None :: _ => panic "invalid memory address or nil pointer dereference"
  | Some opt :: rest =>
      let '(defaultOpts', err) := opt defaultOpts in
      match err with
      | Some _ => mret (defaultOpts', err)
      | None => applyProducerOpts rest defaultOpts'
      end
  end.

Definition CreateProducer (stationName name : string)
    (opts : list (option ProducerOpt)) : Go (option Producer.t * error) :=
  '(defaultOpts, err) ← applyProducerOpts opts getDefaultProducerOpts;
  match err with
  | Some _ => mret (None, err)
  | None =>
      '(name, err) ← (if ProducerOpts.GenUniqueSuffix defaultOpts
                       then extendNameWithRandSuffix name
                       else mret (name, None));
      match err with
      | Some _ => mret (None, err)
      | None =>
          let p := {| Producer.Name := name;
                      Producer.stationName := stationName |} in
          err ← listenToSchemaUpdates stationName;
          match err with
          | Some _ => mret (None, err)
          | None =>
              err ← create p;
              match err with
              | Some _ =>
                  err' ← removeSchemaUpdatesListener stationName;
                  match err' with
                  | Some _ => mret (None, err')
                  | None => mret (None, err)
                  end
              | None => mret (Some p, None)
              end
          end
      end
  end.

(** ** Producer destruction (lines 180-194) *)

Definition getDestructionSubject (p : Producer.t) : string :=
  "$memphis_producer_destructions".

Definition getDestructionReq (p : Producer.t) : request :=
  DestructionReq {| removeProducerReq.Name := Producer.Name p;
                    removeProducerReq.StationName := Producer.stationName p |}.

(** Modelled from the spec: [c.destroy(p)] is called at line 193 and defined
    outside [src/].  The spec (4.3) has it send a synchronous destruction
    request [{name, station}] on the destruction subject; the error of the
    request is its result. *)
Definition destroy (p : Producer.t) : Go error :=
  '(_, err) ← brokerRequest (getDestructionSubject p) (getDestructionReq p);
  mret err.

Definition Destroy (p : Producer.t) : Go error :=
  err ← removeSchemaUpdatesListener (Producer.stationName p);
  match err with
  | Some e => panic e
  | None => destroy p
  end.

(** ** Producing (lines 211-305) *)

Definition getDefaultProduceOpts : Go ProduceOpts.t :=
  msgHeaders ← make_map;
  mret {| ProduceOpts.Message := AnyNil;
          ProduceOpts.AckWaitSec := 15;
          ProduceOpts.MsgHeaders := {| Headers.MsgHeaders := msgHeaders |};
          ProduceOpts.AsyncProduce := false |}.

Definition getSchemaDetails (p : Producer.t) : Go (schemaDetails * error) :=
  c ← getConn;
  mret (Conn_getSchemaDetails c (Producer.stationName p)).

Definition validateMsg (p : Producer.t) (msg : any) : Go (list byte * error) :=
  '(sd, err) ← getSchemaDetails p;
  match err with
  | Some _ => mret ([], err)
  | None =>
      if decide (schemaType sd = EmptyString)
      then
        match msg with
        | AnyBytes b => mret (b, None)
        | _ => mret ([], errors_New "Unsupported message type")
        end
      else mret (validateProtoMsg sd msg)
  end.

(** The [select] of lines 280-285: it returns when one of the two channels
    of the future delivers, and not before. *)
Definition awaitAck (paf : PubAckFuture) : Go error :=
  match paf with
  | AckOk => mret None
  | AckErr err => mret err
  | AckPending => block
  end.

Definition produce (opts : ProduceOpts.t) (p : Producer.t) : Go error :=
  c ← getConn;
  mapassign (Headers.MsgHeaders (ProduceOpts.MsgHeaders opts))
    "$memphis_connectionId" [ConnId c];;
  mapassign (Headers.MsgHeaders (ProduceOpts.MsgHeaders opts))
    "$memphis_producedBy" [Producer.Name p];;
  '(data, err) ← validateMsg p (ProduceOpts.Message opts);
  match err with
  | Some _ => mret err
  | None =>
      header ← mapread (Headers.MsgHeaders (ProduceOpts.MsgHeaders opts));
      let natsMessage :=
        {| Msg.Header := header;
           Msg.Subject := getInternalName (Producer.stationName p) +:+ ".final";
           Msg.Data := data |} in
      let stallWaitDuration :=
        Duration_mul time_Second (Duration_of_int (ProduceOpts.AckWaitSec opts)) in
      '(paf, err) ← brokerPublish natsMessage stallWaitDuration;
      match err with
      | Some _ => mret err
      | None =>
          if ProduceOpts.AsyncProduce opts
          then mret None
          else awaitAck paf
      end
  end.

(** The loop over [opts] of lines 222-228; nil options are skipped. *)
Fixpoint applyProduceOpts (opts : list (option ProduceOpt))
    (defaultOpts : ProduceOpts.t) : ProduceOpts.t * error :=
  match opts with
  | [] => (defaultOpts, None)
  | None :: rest => applyProduceOpts rest defaultOpts
  | Some opt :: rest =>
      let '(defaultOpts', err) := opt defaultOpts in
      match err with
      | Some _ => (defaultOpts', err)
      | None => applyProduceOpts rest defaultOpts'
      end
  end.

Definition Produce (p : Producer.t) (message : any)
    (opts : list (option ProduceOpt)) : Go error :=
  defaultOpts ← getDefaultProduceOpts;
  let defaultOpts :=
    {| ProduceOpts.Message := message;
       ProduceOpts.AckWaitSec := ProduceOpts.AckWaitSec defaultOpts;
       ProduceOpts.MsgHeaders := ProduceOpts.MsgHeaders defaultOpts;
       ProduceOpts.AsyncProduce := ProduceOpts.AsyncProduce defaultOpts |} in
  let '(defaultOpts, err) := applyProduceOpts opts defaultOpts in
  match err with
  | Some _ => mret err
  | None => produce defaultOpts p
  end.

End WithExternals.

(** ** The option constructors (lines 320-350) *)

Definition ProducerGenUniqueSuffix : ProducerOpt := fun opts =>
  ({| ProducerOpts.GenUniqueSuffix := true |}, None).

Definition AckWaitSec (ackWaitSec : Z) : ProduceOpt := fun opts =>
  ({| ProduceOpts.Message := ProduceOpts.Message opts;
      ProduceOpts.AckWaitSec := ackWaitSec;
      ProduceOpts.MsgHeaders := ProduceOpts.MsgHeaders opts;
      ProduceOpts.AsyncProduce := ProduceOpts.AsyncProduce opts |}, None).

Definition MsgHeaders (hdrs : Headers.t) : ProduceOpt := fun opts =>
  ({| ProduceOpts.Message := ProduceOpts.Message opts;
      ProduceOpts.AckWaitSec := ProduceOpts.AckWaitSec opts;
      ProduceOpts.MsgHeaders := hdrs;
      ProduceOpts.AsyncProduce := ProduceOpts.AsyncProduce opts |}, None).

Definition AsyncProduce : ProduceOpt := fun opts =>
  ({| ProduceOpts.Message := ProduceOpts.Message opts;
      ProduceOpts.AckWaitSec := ProduceOpts.AckWaitSec opts;
      ProduceOpts.MsgHeaders := ProduceOpts.MsgHeaders opts;
      ProduceOpts.AsyncProduce := true |}, None).

(** ** The station wrapper (lines 143-146) *)

(** [Station] is declared outside [src/]; the wrapper uses its [Name] and
    its connection, which is the one of the world. *)
Module Station.
Record t : Type := { Name : string }.
End Station.

Section StationWrapper.
Context `{Ext : Externals}.

Definition Station_CreateProducer (s : Station.t) (name : string)
    (opts : list (option ProducerOpt)) : Go (option Producer.t * error) :=
  CreateProducer (Station.Name s) name opts.

End StationWrapper.

(** ** Notions used to state the properties *)

Section Notions.
Context `{Ext : Externals}.

(** The world once the two provenance headers are written through [l]. *)
Definition stamp (l : loc) (p : Producer.t) (w : World) : World :=
  set_maps
    (alter (insert "$memphis_producedBy" [Producer.Name p]) l
       (alter (insert "$memphis_connectionId" [ConnId (conn w)]) l (maps w)))
    w.

(** The message [produce] hands to the transport for validated [data]. *)
Definition outgoing (l : loc) (p : Producer.t) (data : list byte) (w : World) : Msg.t :=
  {| Msg.Header := default ∅ (maps (stamp l p w) !! l);
     Msg.Subject := getInternalName (Producer.stationName p) +:+ ".final";
     Msg.Data := data |}.

(** The world once [ev] went over the connection. *)
Definition after_call (ev : Call) (w : World) : World :=
  set_conn (log_call ev (conn w)) w.

(** The station of [p] has no active schema on connection [c]. *)
Definition no_schema (p : Producer.t) (c : Conn) : Prop :=
  exists sd : schemaDetails,
    Conn_getSchemaDetails c (Producer.stationName p) = (sd, None) /\
    schemaType sd = EmptyString.

End Notions.

(** [key] starts with the reserved control prefix. *)
Definition reserved (key : string) : Prop :=
  exists rest : string, key = "$memphis" +:+ rest.

(** A header table that holds no key with the reserved prefix. *)
Definition no_reserved_keys (m : gmap string (list string)) : Prop :=
  forall k : string, reserved k -> m !! k = None.

(** The dynamic type of a message is [[]byte]. *)
Definition is_bytes (msg : any) : bool :=
  match msg with
  | AnyBytes _ => true
  | _ => false
  end.

Definition isHexDigit (c : ascii) : bool :=
  let n := N_of_ascii c in
  ((48 <=? n) && (n <=? 57) || (97 <=? n) && (n <=? 102))%N.

Fixpoint all_chars (f : ascii -> bool) (s : string) : bool :=
  match s with
  | EmptyString => true
  | String c rest => f c && all_chars f rest
  end.

(** ** A broker for the examples *)

(** The reply to every request is [reply], decoded as [decoded]; listening
    registers the station, removing the listener fails with [removeErr] if
    that is an error; a station with a listener has no schema; every publish
    is answered by [ack]. *)
Definition demoExternals (reply : list byte * error)
    (decoded : createProducerResp.t * error) (removeErr : error)
    (ack : PubAckFuture * error) : Externals :=
  {| schemaDetails := string;
     schemaType := fun sd => sd;
     Conn_getSchemaDetails := fun c stationName =>
       match stationUpdatesSubs c !! stationName with
       | Some _ => (EmptyString, None)
       | None => (EmptyString, errors_New "station subscription doesn't exist")
       end;
     validateProtoMsg := fun sd msg => ([], errors_New "schema validation failed");
     getInternalName := fun stationName => stationName;
     json_Unmarshal := fun resp => decoded;
     relayListen := fun c stationName =>
       match stationUpdatesSubs c !! stationName with
       | Some _ => (None, stationUpdatesSubs c)
       | None => (None, <[stationName := {| schemaUpdateCh := [] |}]> (stationUpdatesSubs c))
       end;
     relayRemove := fun c stationName =>
       match removeErr with
       | Some _ => (removeErr, stationUpdatesSubs c)
       | None => (None, delete stationName (stationUpdatesSubs c))
       end;
     transportRequest := fun c subject req => reply;
     transportPublish := fun c msg stallWait => ack |}.

Definition demoInit : SchemaUpdateInit.t :=
  {| SchemaUpdateInit.SchemaName := "orders_schema";
     SchemaUpdateInit.Versions := [];
     SchemaUpdateInit.ActiveVersionIdx := 0;
     SchemaUpdateInit.SchemaType := EmptyString |}.

Definition demoAccepted : createProducerResp.t * error :=
  ({| createProducerResp.SchemaUpdateInit := demoInit;
      createProducerResp.Err := EmptyString |}, None).

Definition demoRejected : createProducerResp.t * error :=
  ({| createProducerResp.SchemaUpdateInit := demoInit;
      createProducerResp.Err := "station does not exist" |}, None).

(** A connection with a listener on "orders", one header table at address 1
    holding a caller's header, and six bytes of entropy. *)
Definition demoConn : Conn :=
  {| ConnId := "conn-1";
     stationUpdatesSubs := {[ "orders" := {| schemaUpdateCh := [] |} ]};
     brokerConn := [] |}.

Definition demoWorld : World :=
  {| conn := demoConn;
     maps := {[ 1%positive := {[ "trace" := ["t-7"] ]} ]};
     entropy := [x00; x1f; xa2; xff; x10; x20] |}.

Definition demoProducer : Producer.t :=
  {| Producer.Name := "p1"; Producer.stationName := "orders" |}.

Definition demoOpts (msg : any) (async : bool) : ProduceOpts.t :=
  {| ProduceOpts.Message := msg;
     ProduceOpts.AckWaitSec := 5;
     ProduceOpts.MsgHeaders := {| Headers.MsgHeaders := Some 1%positive |};
     ProduceOpts.AsyncProduce := async |}.

(** The broker accepts and acknowledges. *)
Definition demoOk : Externals :=
  demoExternals ([], None) demoAccepted None (AckOk, None).

(** The broker accepts the write and the future never resolves. *)
Definition demoSilent : Externals :=
  demoExternals ([], None) demoAccepted None (AckPending, None).

(** The future reports a failure. *)
Definition demoNack : Externals :=
  demoExternals ([], None) demoAccepted None (AckErr (Some "nats: timeout"), None).

(** The broker rejects the creation and the listener cannot be removed. *)
Definition demoRejecting : Externals :=
  demoExternals ([], None) demoRejected (Some "no active listener") (AckOk, None).

(** The station has an active schema whose validator accepts structs and
    returns their encoding. *)
Definition demoWithSchema : Externals :=
  {| schemaDetails := string;
     schemaType := fun sd => sd;
     Conn_getSchemaDetails := fun c stationName => ("protobuf", None);
     validateProtoMsg := fun sd msg =>
       match msg with
       | AnyStruct _ fields => (fields, None)
       | _ => ([], errors_New "schema validation failed")
       end;
     getInternalName := fun stationName => stationName;
     json_Unmarshal := fun resp => demoAccepted;
     relayListen := fun c stationName => (None, stationUpdatesSubs c);
     relayRemove := fun c stationName => (None, stationUpdatesSubs c);
     transportRequest := fun c subject req => ([], None);
     transportPublish := fun c msg stallWait => (AckOk, None) |}.

(** The subscription to schema updates is refused. *)
Definition demoDeaf : Externals :=
  {| schemaDetails := string;
     schemaType := fun sd => sd;
     Conn_getSchemaDetails := fun c stationName => (EmptyString, None);
     validateProtoMsg := fun sd msg => ([], errors_New "schema validation failed");
     getInternalName := fun stationName => stationName;
     json_Unmarshal := fun resp => demoAccepted;
     relayListen := fun c stationName =>
       (errors_New "nats: no responders", stationUpdatesSubs c);
     relayRemove := fun c stationName => (None, stationUpdatesSubs c);
     transportRequest := fun c subject req => ([], None);
     transportPublish := fun c msg stallWait => (AckOk, None) |}.

Definition demoOtherProducer : Producer.t :=
  {| Producer.Name := "p9"; Producer.stationName := "orders" |}.

Definition demoGhostProducer : Producer.t :=
  {| Producer.Name := "p1"; Producer.stationName := "ghost" |}.

(** * Properties *)

(** ** Unfolding the monad *)

Lemma bind_Returned {A B : Type} (m : Go A) (k : A -> Go B) (w w' : World) (a : A) :
  m w = (Returned a, w') -> (m ≫= k) w = k a w'.
Proof. intros E. unfold mbind, Go_bind. now rewrite E. Qed.


Lemma bind_Blocked {A B : Type} (m : Go A) (k : A -> Go B) (w w' : World) :
  m w = (Blocked, w') -> (m ≫= k) w = (Blocked, w').
Proof. intros E. unfold mbind, Go_bind. now rewrite E. Qed.

Lemma bind_ret {A B : Type} (a : A) (k : A -> Go B) (w : World) :
  (mret a ≫= k) w = k a w.
Proof. reflexivity. Qed.

Ltac go_step :=
  repeat (rewrite bind_ret || (unfold mbind, Go_bind, mret, Go_ret; simpl)).

(** ** The reserved prefix *)

Lemma HasPrefix_reserved (key : string) :
  String.prefix "$memphis" key = true <-> reserved key.
Proof.
  unfold reserved. split.
  - intros H.
    do 8 (destruct key as [|[[] [] [] [] [] [] [] []] key]; simpl in H; try discriminate H).
    now exists key.
  - intros [rest ->]. simpl. now destruct rest.
Qed.

Lemma validateHeaderKey_reserved (hdr : Headers.t) (key : string) :
  reserved key ->
  validateHeaderKey hdr key =
    errors_New "Keys in headers should not start with $memphis".
Proof.
  intros H. apply HasPrefix_reserved in H. unfold validateHeaderKey. now rewrite H.
Qed.

Lemma validateHeaderKey_free (hdr : Headers.t) (key : string) :
  ~ reserved key -> validateHeaderKey hdr key = None.
Proof.
  intros H. unfold validateHeaderKey.
  destruct (String.prefix "$memphis" key) eqn:E; [|reflexivity].
  exfalso. apply H. now apply HasPrefix_reserved.
Qed.

Lemma reserved_dec (key : string) : {reserved key} + {~ reserved key}.
Proof.
  destruct (String.prefix "$memphis" key) eqn:E.
  - left. now apply HasPrefix_reserved.
  - right. intros H. apply HasPrefix_reserved in H. congruence.
Qed.

(** ** Headers *)

(** On a [Headers] whose table was never made, [Add] of a free key panics
    at the assignment. *)
Lemma Add_nil_map (key value : string) (w : World) :
  ~ reserved key ->
  Add {| Headers.MsgHeaders := None |} key value w =
    (Panicked "assignment to entry in nil map", w).
Proof.
  intros H. unfold Add. rewrite (validateHeaderKey_free _ _ H). reflexivity.
Qed.

(** [New] gives the [Headers] a table of its own, empty. *)
Lemma New_makes_table (hdr : Headers.t) (w : World) :
  exists (l : loc) (w' : World),
    New hdr w = (Returned {| Headers.MsgHeaders := Some l |}, w') /\
    maps w !! l = None /\ maps w' !! l = Some ∅.
Proof.
  exists (fresh (dom (maps w))). eexists. split; [reflexivity|]. split.
  - apply not_elem_of_dom, is_fresh.
  - apply lookup_insert_eq.
Qed.

(** C6.  On a [Headers] with a table, [Add key value] returns the
    reserved-key error exactly when [key] starts with the reserved prefix,
    and then leaves the world as it was; for every other key it returns nil
    and the table becomes the old one with [[value]] stored under [key]: a
    list stored there before is replaced, every other key reads as before,
    and nothing else in the world changes. *)
Theorem Add_reserved_iff_and_overwrite
    (l : loc) (m : gmap string (list string)) (key value : string) (w : World) :
  maps w !! l = Some m ->
  let hdr := {| Headers.MsgHeaders := Some l |} in
  (fst (Add hdr key value w) =
     Returned (errors_New "Keys in headers should not start with $memphis")
   <-> reserved key) /\
  (reserved key -> snd (Add hdr key value w) = w) /\
  (~ reserved key ->
   exists w' : World,
     Add hdr key value w = (Returned None, w') /\
     maps w' !! l = Some (<[key := [value]]> m) /\
     <[key := [value]]> m !! key = Some [value] /\
     (forall k : string, k <> key -> <[key := [value]]> m !! k = m !! k) /\
     (forall l' : loc, l' <> l -> maps w' !! l' = maps w !! l') /\
     conn w' = conn w /\ entropy w' = entropy w).
Proof.
  intros Hl hdr. split; [|split].
  - split.
    + intros H. destruct (reserved_dec key) as [R|R]; [exact R|].
      unfold Add in H. rewrite (validateHeaderKey_free _ _ R) in H.
      simpl in H. discriminate H.
    + intros R. unfold Add. now rewrite (validateHeaderKey_reserved _ _ R).
  - intros R. unfold Add. now rewrite (validateHeaderKey_reserved _ _ R).
  - intros R. unfold Add. rewrite (validateHeaderKey_free _ _ R).
    eexists. split; [reflexivity|]. simpl.
    repeat split.
    + rewrite lookup_alter_eq, Hl. reflexivity.
    + apply lookup_insert_eq.
    + intros k Hk. now apply lookup_insert_ne.
    + intros l' Hl'. now apply lookup_alter_ne.
Qed.

(** ** Control subjects *)

(** C7, as the claim has it: at the producer "p1" of station "orders" none
    of the three subjects is the one the claim names. *)
Lemma control_subjects_not_as_claimed :
  getCreationSubject {| Producer.Name := "p1"; Producer.stationName := "orders" |}
    <> "producer-creations" /\
  getDestructionSubject {| Producer.Name := "p1"; Producer.stationName := "orders" |}
    <> "producer-destructions" /\
  Sprintf schemaUpdatesSubjectTemplate "orders" <> "schema-updates.orders".
Proof. repeat split; discriminate. Qed.

Lemma Sprintf_schemaUpdatesSubjectTemplate (S : string) :
  Sprintf schemaUpdatesSubjectTemplate S = "$memphis_schema_updates_" +:+ S.
Proof.
  assert (E : S +:+ EmptyString = S).
  { induction S as [|c S IH]; [reflexivity|].
    change (String c (S +:+ EmptyString) = String c S). now f_equal. }
  transitivity ("$memphis_schema_updates_" +:+ (S +:+ EmptyString));
    [reflexivity | now rewrite E].
Qed.

(** C7, amended.  Creation requests go to [$memphis_producer_creations],
    destruction requests to [$memphis_producer_destructions], and the
    schema-updates template formatted with a station name [S] is
    [$memphis_schema_updates_S]. *)
Theorem control_subjects (p : Producer.t) (S : string) :
  getCreationSubject p = "$memphis_producer_creations" /\
  getDestructionSubject p = "$memphis_producer_destructions" /\
  Sprintf schemaUpdatesSubjectTemplate S = "$memphis_schema_updates_" +:+ S.
Proof.
  split; [reflexivity|]. split; [reflexivity|].
  apply Sprintf_schemaUpdatesSubjectTemplate.
Qed.

Section ProduceProperties.
Context `{Ext : Externals}.

(** ** Validation *)

(** [validateMsg] always returns, and only reads the connection. *)
Lemma validateMsg_frame (p : Producer.t) (msg : any) (w : World) :
  exists r : list byte * error, validateMsg p msg w = (Returned r, w).
Proof.
  unfold validateMsg, getSchemaDetails. go_step.
  destruct (Conn_getSchemaDetails (conn w) (Producer.stationName p)) as [sd [e|]];
    [eexists; reflexivity|].
  destruct (decide (schemaType sd = EmptyString)); [|eexists; reflexivity].
  destruct msg; eexists; reflexivity.
Qed.

Lemma validateMsg_conn (p : Producer.t) (msg : any) (w w' : World) :
  conn w = conn w' -> fst (validateMsg p msg w) = fst (validateMsg p msg w').
Proof.
  intros E. unfold validateMsg, getSchemaDetails. go_step. rewrite <- E.
  destruct (Conn_getSchemaDetails (conn w) (Producer.stationName p)) as [sd [e|]];
    [reflexivity|].
  destruct (decide (schemaType sd = EmptyString)); [|reflexivity].
  destruct msg; reflexivity.
Qed.

Lemma validateMsg_moved (p : Producer.t) (msg : any) (w w' : World)
    (r : list byte * error) :
  conn w = conn w' ->
  validateMsg p msg w = (Returned r, w) ->
  validateMsg p msg w' = (Returned r, w').
Proof.
  intros E H. destruct (validateMsg_frame p msg w') as [r' H'].
  pose proof (validateMsg_conn p msg w w' E) as F.
  rewrite H, H' in F. simpl in F. congruence.
Qed.

Lemma validateMsg_no_schema_bytes (p : Producer.t) (b : list byte) (w : World) :
  no_schema p (conn w) ->
  validateMsg p (AnyBytes b) w = (Returned (b, None), w).
Proof.
  intros (sd & Hsd & Hty). unfold validateMsg, getSchemaDetails. go_step.
  rewrite Hsd. destruct (decide (schemaType sd = EmptyString)); [reflexivity|contradiction].
Qed.

Lemma validateMsg_no_schema_other (p : Producer.t) (msg : any) (w : World) :
  no_schema p (conn w) ->
  is_bytes msg = false ->
  validateMsg p msg w = (Returned ([], errors_New "Unsupported message type"), w).
Proof.
  intros (sd & Hsd & Hty) Hmsg. unfold validateMsg, getSchemaDetails. go_step.
  rewrite Hsd. destruct (decide (schemaType sd = EmptyString)); [|contradiction].
  destruct msg; try reflexivity. discriminate Hmsg.
Qed.

(** ** The shape of a [produce] call *)

Lemma stamp_conn (l : loc) (p : Producer.t) (w : World) : conn (stamp l p w) = conn w.
Proof. reflexivity. Qed.

Lemma stamp_lookup (l : loc) (p : Producer.t) (w : World)
    (m : gmap string (list string)) :
  maps w !! l = Some m ->
  maps (stamp l p w) !! l =
    Some (<["$memphis_producedBy" := [Producer.Name p]]>
            (<["$memphis_connectionId" := [ConnId (conn w)]]> m)).
Proof.
  intros H. unfold stamp. simpl. rewrite !lookup_alter_eq, H. reflexivity.
Qed.

Lemma stamp_lookup_ne (l l' : loc) (p : Producer.t) (w : World) :
  l' <> l -> maps (stamp l p w) !! l' = maps w !! l'.
Proof.
  intros H. unfold stamp. simpl. rewrite !lookup_alter_ne by congruence. reflexivity.
Qed.

(** A failed validation ends the call right after the header writes. *)
Lemma produce_invalid (opts : ProduceOpts.t) (p : Producer.t) (w : World)
    (l : loc) (data : list byte) (e : string) :
  Headers.MsgHeaders (ProduceOpts.MsgHeaders opts) = Some l ->
  validateMsg p (ProduceOpts.Message opts) w = (Returned (data, Some e), w) ->
  produce opts p w = (Returned (Some e), stamp l p w).
Proof.
  intros Hl Hv. unfold produce. rewrite Hl. go_step.
  change (set_maps _ (set_maps _ w)) with (stamp l p w).
  rewrite (validateMsg_moved p _ w (stamp l p w) _ eq_refl Hv). reflexivity.
Qed.

(** After a successful validation the message is submitted, and the answer
    of the transport decides. *)
Lemma produce_valid (opts : ProduceOpts.t) (p : Producer.t) (w : World)
    (l : loc) (data : list byte) :
  Headers.MsgHeaders (ProduceOpts.MsgHeaders opts) = Some l ->
  validateMsg p (ProduceOpts.Message opts) w = (Returned (data, None), w) ->
  let msg := outgoing l p data w in
  let d := Duration_mul time_Second (Duration_of_int (ProduceOpts.AckWaitSec opts)) in
  let w' := after_call (CallPublish msg d) (stamp l p w) in
  produce opts p w =
    match transportPublish (conn w) msg d with
    | (_, Some e) => (Returned (Some e), w')
    | (paf, None) =>
        if ProduceOpts.AsyncProduce opts then (Returned None, w') else awaitAck paf w'
    end.
Proof.
  intros Hl Hv msg d w'. unfold produce. rewrite Hl. go_step.
  change (set_maps _ (set_maps _ w)) with (stamp l p w).
  rewrite (validateMsg_moved p _ w (stamp l p w) _ eq_refl Hv).
  unfold brokerPublish. simpl.
  match goal with
  | |- context [transportPublish ?c ?m ?t] =>
      change (transportPublish c m t) with (transportPublish (conn w) msg d)
  end.
  destruct (transportPublish (conn w) msg d) as [paf [e|]]; [reflexivity|].
  destruct (ProduceOpts.AsyncProduce opts); reflexivity.
Qed.

(** With a nil header table, [produce] panics at the first header write. *)
Lemma produce_nil_map (opts : ProduceOpts.t) (p : Producer.t) (w : World) :
  Headers.MsgHeaders (ProduceOpts.MsgHeaders opts) = None ->
  produce opts p w = (Panicked "assignment to entry in nil map", w).
Proof. intros H. unfold produce. rewrite H. reflexivity. Qed.

End ProduceProperties.

Section ProduceClaims.
Context `{Ext : Externals}.

Lemma make_map_fresh (w : World) : maps w !! fresh (dom (maps w)) = None.
Proof. apply not_elem_of_dom, is_fresh. Qed.

Lemma Produce_default (p : Producer.t) (message : any) (w : World) :
  let l := fresh (dom (maps w)) in
  Produce p message [] w =
    produce {| ProduceOpts.Message := message;
               ProduceOpts.AckWaitSec := 15;
               ProduceOpts.MsgHeaders := {| Headers.MsgHeaders := Some l |};
               ProduceOpts.AsyncProduce := false |} p
      (set_maps (<[l := ∅]> (maps w)) w).
Proof. reflexivity. Qed.

Lemma Produce_MsgHeaders (p : Producer.t) (message : any) (hdrs : Headers.t)
    (w : World) :
  let l := fresh (dom (maps w)) in
  Produce p message [Some (MsgHeaders hdrs)] w =
    produce {| ProduceOpts.Message := message;
               ProduceOpts.AckWaitSec := 15;
               ProduceOpts.MsgHeaders := hdrs;
               ProduceOpts.AsyncProduce := false |} p
      (set_maps (<[l := ∅]> (maps w)) w).
Proof. reflexivity. Qed.

(** C1.  On a station with no active schema, validating a [[]byte] payload
    succeeds and returns those very bytes; for a payload of any other
    dynamic type [produce] (on options whose header table exists) returns
    the error "Unsupported message type", and the connection is left as it
    was, so nothing is published.  The same holds for [Produce] called
    without options. *)
Theorem produce_without_schema (p : Producer.t) (w : World) :
  no_schema p (conn w) ->
  (forall b : list byte, validateMsg p (AnyBytes b) w = (Returned (b, None), w)) /\
  (forall (opts : ProduceOpts.t) (l : loc),
     Headers.MsgHeaders (ProduceOpts.MsgHeaders opts) = Some l ->
     is_bytes (ProduceOpts.Message opts) = false ->
     exists w' : World,
       produce opts p w = (Returned (errors_New "Unsupported message type"), w') /\
       conn w' = conn w) /\
  (forall message : any,
     is_bytes message = false ->
     exists w' : World,
       Produce p message [] w = (Returned (errors_New "Unsupported message type"), w') /\
       conn w' = conn w).
Proof.
  intros Hs. split; [|split].
  - intros b. now apply validateMsg_no_schema_bytes.
  - intros opts l Hl Hm. exists (stamp l p w). split; [|reflexivity].
    apply produce_invalid with (data := []); [exact Hl|].
    now apply validateMsg_no_schema_other.
  - intros message Hm. rewrite Produce_default. eexists. split.
    + apply produce_invalid with (data := []); [reflexivity|].
      now apply validateMsg_no_schema_other.
    + reflexivity.
Qed.

(** C5.  Once validation has passed and the message is submitted: a
    submission error is returned as it is, whether the call is asynchronous
    or not; after a successful submission an asynchronous call returns nil
    whatever the future holds, also when it never resolves; a synchronous
    call returns nil when the future acknowledges, the reported error when
    it fails, and does not return while the future is pending. *)
Theorem produce_async_or_await (opts : ProduceOpts.t) (p : Producer.t)
    (w : World) (l : loc) (data : list byte) (paf : PubAckFuture) (err : error) :
  Headers.MsgHeaders (ProduceOpts.MsgHeaders opts) = Some l ->
  validateMsg p (ProduceOpts.Message opts) w = (Returned (data, None), w) ->
  let msg := outgoing l p data w in
  let d := Duration_mul time_Second (Duration_of_int (ProduceOpts.AckWaitSec opts)) in
  let w' := after_call (CallPublish msg d) (stamp l p w) in
  transportPublish (conn w) msg d = (paf, err) ->
  (forall e : string, err = Some e -> produce opts p w = (Returned (Some e), w')) /\
  (err = None -> ProduceOpts.AsyncProduce opts = true ->
   produce opts p w = (Returned None, w')) /\
  (err = None -> ProduceOpts.AsyncProduce opts = false ->
   produce opts p w =
     match paf with
     | AckOk => (Returned None, w')
     | AckErr ackErr => (Returned ackErr, w')
     | AckPending => (Blocked, w')
     end).
Proof.
  intros Hl Hv msg d w' Ht.
  pose proof (produce_valid opts p w l data Hl Hv) as H. simpl in H.
  fold msg d w' in H. rewrite Ht in H.
  split; [|split].
  - intros e ->. exact H.
  - intros -> Ha. now rewrite Ha in H.
  - intros -> Ha. rewrite Ha in H. rewrite H. now destruct paf.
Qed.

Lemma wrap64_small (z : Z) : - 2 ^ 63 <= z < 2 ^ 63 -> wrap64 z = z.
Proof.
  intros H. unfold wrap64.
  rewrite Z.mod_small by lia. lia.
Qed.

Lemma seconds_to_Duration (s : Z) :
  -9223372036 <= s <= 9223372036 ->
  Duration_mul time_Second (Duration_of_int s) = s * 1000000000.
Proof.
  intros H. unfold Duration_mul, Duration_of_int, time_Second.
  rewrite (wrap64_small s) by lia. rewrite wrap64_small by lia. lia.
Qed.

(** C9.  [getDefaultProduceOpts] returns an ack-wait of 15 seconds, a header
    table that is newly made, hence not nil, and empty, and the synchronous
    mode.  [produce] hands the transport, as stall-wait bound, the ack-wait
    seconds multiplied by [time.Second] in [int64]: for 15 seconds that is
    15 000 000 000 ns, and exactly [s] seconds for every [s] whose
    nanoseconds fit 64 bits. *)
Theorem default_opts_and_stall_wait :
  (forall w : World,
     exists (l : loc) (w' : World),
       getDefaultProduceOpts w =
         (Returned {| ProduceOpts.Message := AnyNil;
                      ProduceOpts.AckWaitSec := 15;
                      ProduceOpts.MsgHeaders := {| Headers.MsgHeaders := Some l |};
                      ProduceOpts.AsyncProduce := false |}, w') /\
       maps w !! l = None /\ maps w' !! l = Some ∅ /\
       (forall l' : loc, l' <> l -> maps w' !! l' = maps w !! l') /\
       conn w' = conn w) /\
  (forall (opts : ProduceOpts.t) (p : Producer.t) (w : World) (l : loc)
          (data : list byte),
     Headers.MsgHeaders (ProduceOpts.MsgHeaders opts) = Some l ->
     validateMsg p (ProduceOpts.Message opts) w = (Returned (data, None), w) ->
     brokerConn (conn (snd (produce opts p w))) =
       (brokerConn (conn w) ++
        [CallPublish (outgoing l p data w)
           (Duration_mul time_Second
              (Duration_of_int (ProduceOpts.AckWaitSec opts)))])%list) /\
  (forall s : Z,
     -9223372036 <= s <= 9223372036 ->
     Duration_mul time_Second (Duration_of_int s) = s * 1000000000) /\
  Duration_mul time_Second (Duration_of_int 15) = 15 * 1000000000.
Proof.
  split; [|split; [|split]].
  - intros w. exists (fresh (dom (maps w))). eexists. split; [reflexivity|].
    simpl. repeat split.
    + apply make_map_fresh.
    + apply lookup_insert_eq.
    + intros l' Hl'. now apply lookup_insert_ne.
  - intros opts p w l data Hl Hv.
    rewrite (produce_valid opts p w l data Hl Hv).
    destruct (transportPublish _ _ _) as [paf [e|]]; [reflexivity|].
    destruct (ProduceOpts.AsyncProduce opts); [reflexivity|].
    destruct paf; reflexivity.
  - apply seconds_to_Duration.
  - reflexivity.
Qed.

(** C10.  [produce] writes [$memphis_connectionId] and [$memphis_producedBy]
    through the reference held by the options, that is into the table of
    the caller who supplied the headers.  Whatever the call then does, the
    table holds the two keys afterwards; in particular a call that fails
    with "Unsupported message type" leaves them there, also when it was
    made through [Produce] with the [MsgHeaders] option.  Every other key
    of the table, and every other table, is as before. *)
Theorem produce_stamps_caller_headers (p : Producer.t) (w : World) (l : loc)
    (m : gmap string (list string)) :
  maps w !! l = Some m ->
  let hdrs := {| Headers.MsgHeaders := Some l |} in
  let m' := <["$memphis_producedBy" := [Producer.Name p]]>
              (<["$memphis_connectionId" := [ConnId (conn w)]]> m) in
  (forall opts : ProduceOpts.t,
     ProduceOpts.MsgHeaders opts = hdrs ->
     maps (snd (produce opts p w)) !! l = Some m' /\
     (forall l' : loc, l' <> l -> maps (snd (produce opts p w)) !! l' = maps w !! l')) /\
  (forall opts : ProduceOpts.t,
     ProduceOpts.MsgHeaders opts = hdrs ->
     no_schema p (conn w) ->
     is_bytes (ProduceOpts.Message opts) = false ->
     exists w' : World,
       produce opts p w = (Returned (errors_New "Unsupported message type"), w') /\
       maps w' !! l = Some m') /\
  (forall message : any,
     no_schema p (conn w) ->
     is_bytes message = false ->
     exists w' : World,
       Produce p message [Some (MsgHeaders hdrs)] w =
         (Returned (errors_New "Unsupported message type"), w') /\
       maps w' !! l = Some m') /\
  m' !! "$memphis_connectionId" = Some [ConnId (conn w)] /\
  m' !! "$memphis_producedBy" = Some [Producer.Name p] /\
  (forall k : string,
     k <> "$memphis_connectionId" -> k <> "$memphis_producedBy" -> m' !! k = m !! k).
Proof.
  intros Hm hdrs m'.
  assert (Hst : forall w0 : World,
             maps w0 = maps (stamp l p w) -> maps w0 !! l = Some m').
  { intros w0 ->. now apply stamp_lookup. }
  split; [|split; [|split; [|split; [|split]]]].
  - intros opts Ho.
    assert (Hl : Headers.MsgHeaders (ProduceOpts.MsgHeaders opts) = Some l)
      by now rewrite Ho.
    assert (E : maps (snd (produce opts p w)) = maps (stamp l p w)).
    { destruct (validateMsg_frame p (ProduceOpts.Message opts) w) as [[data [e|]] Hv].
      - now rewrite (produce_invalid opts p w l data e Hl Hv).
      - rewrite (produce_valid opts p w l data Hl Hv).
        destruct (transportPublish _ _ _) as [paf [e|]]; [reflexivity|].
        destruct (ProduceOpts.AsyncProduce opts); [reflexivity|].
        destruct paf; reflexivity. }
    split; [now apply Hst|].
    intros l' Hl'. rewrite E. now apply stamp_lookup_ne.
  - intros opts Ho Hs Hb.
    assert (Hl : Headers.MsgHeaders (ProduceOpts.MsgHeaders opts) = Some l)
      by now rewrite Ho.
    exists (stamp l p w). split; [|now apply Hst].
    apply produce_invalid with (data := []); [exact Hl|].
    now apply validateMsg_no_schema_other.
  - intros message Hs Hb. rewrite Produce_MsgHeaders.
    eexists. split.
    + apply produce_invalid with (l := l) (data := []); [reflexivity|].
      now apply validateMsg_no_schema_other.
    + apply (stamp_lookup l p (set_maps (<[fresh (dom (maps w)) := ∅]> (maps w)) w)).
      simpl. rewrite lookup_insert_ne; [exact Hm|].
      intros E. pose proof (make_map_fresh w) as F. rewrite E in F. congruence.
  - unfold m'. rewrite lookup_insert_ne by discriminate. apply lookup_insert_eq.
  - apply lookup_insert_eq.
  - intros k H1 H2. unfold m'. now rewrite !lookup_insert_ne by congruence.
Qed.

End ProduceClaims.

Section LifecycleClaims.
Context `{Ext : Externals}.

(** ** The creation response *)

(** C4.  For a response that decodes without error: if its error string is
    empty and the station has a relay entry, [handleCreationResp] returns
    nil and the channel of that station holds one more event, the last, of
    type Init (the number 1) and carrying the schema snapshot of the
    response; the entries of other stations and the record of the
    connection are as before.  If the error string is not empty it returns
    an error with that string and the world is unchanged. *)
Theorem handleCreationResp_enqueues_Init (p : Producer.t) (resp : list byte)
    (cr : createProducerResp.t) (w : World) :
  json_Unmarshal resp = (cr, None) ->
  (createProducerResp.Err cr = EmptyString ->
   forall sub : stationUpdateSub,
     stationUpdatesSubs (conn w) !! Producer.stationName p = Some sub ->
     exists w' : World,
       handleCreationResp p resp w = (Returned None, w') /\
       stationUpdatesSubs (conn w') !! Producer.stationName p =
         Some {| schemaUpdateCh :=
                   schemaUpdateCh sub ++
                   [{| SchemaUpdate.UpdateType := 1;
                       SchemaUpdate.Init := createProducerResp.SchemaUpdateInit cr |}] |} /\
       (forall s : string,
          s <> Producer.stationName p ->
          stationUpdatesSubs (conn w') !! s = stationUpdatesSubs (conn w) !! s) /\
       brokerConn (conn w') = brokerConn (conn w) /\
       maps w' = maps w) /\
  (createProducerResp.Err cr <> EmptyString ->
   handleCreationResp p resp w =
     (Returned (errors_New (createProducerResp.Err cr)), w)).
Proof.
  intros Hj. split.
  - intros He sub Hsub. unfold handleCreationResp. rewrite Hj.
    destruct (decide (createProducerResp.Err cr <> EmptyString)) as [N|_];
      [contradiction|].
    unfold chan_send. go_step. rewrite Hsub. simpl.
    eexists. split; [reflexivity|]. simpl. repeat split.
    + apply lookup_insert_eq.
    + intros s Hs. now apply lookup_insert_ne.
  - intros He. unfold handleCreationResp. rewrite Hj.
    destruct (decide (createProducerResp.Err cr <> EmptyString)) as [_|N];
      [reflexivity|contradiction].
Qed.

(** Without a relay entry for the station the call does not return. *)
Lemma handleCreationResp_no_relay (p : Producer.t) (resp : list byte)
    (cr : createProducerResp.t) (w : World) :
  json_Unmarshal resp = (cr, None) ->
  createProducerResp.Err cr = EmptyString ->
  stationUpdatesSubs (conn w) !! Producer.stationName p = None ->
  forall err : error, fst (handleCreationResp p resp w) <> Returned err.
Proof.
  intros Hj He Hsub err. unfold handleCreationResp. rewrite Hj.
  destruct (decide (createProducerResp.Err cr <> EmptyString)) as [N|_];
    [contradiction|].
  unfold chan_send. go_step. rewrite Hsub. discriminate.
Qed.

(** ** Creation *)

(** A request the broker answers with an error string fails the creation
    with that string. *)
Lemma create_rejected (p : Producer.t) (w : World) (resp : list byte)
    (cr : createProducerResp.t) :
  transportRequest (conn w) (getCreationSubject p) (getCreationReq p (conn w))
    = (resp, None) ->
  json_Unmarshal resp = (cr, None) ->
  createProducerResp.Err cr <> EmptyString ->
  create p w =
    (Returned (errors_New (createProducerResp.Err cr)),
     after_call (CallRequest (getCreationSubject p) (getCreationReq p (conn w))) w).
Proof.
  intros Ht Hj He. unfold create, brokerRequest. go_step. rewrite Ht.
  unfold handleCreationResp. rewrite Hj.
  destruct (decide (createProducerResp.Err cr <> EmptyString)) as [_|N];
    [reflexivity|contradiction].
Qed.

Lemma removeSchemaUpdatesListener_eq (stationName : string) (w : World) :
  removeSchemaUpdatesListener stationName w =
    (Returned (fst (relayRemove (conn w) stationName)),
     set_conn (set_subs (snd (relayRemove (conn w) stationName))
                 (log_call (CallRemoveListener stationName) (conn w))) w).
Proof.
  unfold removeSchemaUpdatesListener.
  now destruct (relayRemove (conn w) stationName).
Qed.

(** C2.  When the options apply, the name is settled and the relay is
    registered, and the creation request then fails with [e], then
    [CreateProducer] calls [removeSchemaUpdatesListener] for the station
    before it returns, and returns no producer and an error: the error of
    the removal if the removal fails, [e] otherwise.  A response of the
    broker that carries a non-empty error string is such a failure. *)
Theorem CreateProducer_rolls_back (stationName name name' : string)
    (opts : list (option ProducerOpt)) (o : ProducerOpts.t)
    (w w0 w1 w2 : World) (e : string) :
  applyProducerOpts opts getDefaultProducerOpts w = (Returned (o, None), w) ->
  (if ProducerOpts.GenUniqueSuffix o
   then extendNameWithRandSuffix name
   else mret (name, None)) w = (Returned (name', None), w0) ->
  listenToSchemaUpdates stationName w0 = (Returned None, w1) ->
  let p := {| Producer.Name := name'; Producer.stationName := stationName |} in
  create p w1 = (Returned (Some e), w2) ->
  let w3 := snd (removeSchemaUpdatesListener stationName w2) in
  CreateProducer stationName name opts w =
    (Returned (None,
               match fst (relayRemove (conn w2) stationName) with
               | Some e' => Some e'
               | None => Some e
               end), w3) /\
  brokerConn (conn w3) =
    (brokerConn (conn w2) ++ [CallRemoveListener stationName])%list /\
  stationUpdatesSubs (conn w3) = snd (relayRemove (conn w2) stationName) /\
  (forall (resp : list byte) (cr : createProducerResp.t),
     transportRequest (conn w1) (getCreationSubject p) (getCreationReq p (conn w1))
       = (resp, None) ->
     json_Unmarshal resp = (cr, None) ->
     createProducerResp.Err cr <> EmptyString ->
     e = createProducerResp.Err cr).
Proof.
  intros Ho Hn Hl p Hc w3. split; [|split; [|split]].
  - unfold CreateProducer.
    rewrite (bind_Returned _ _ _ _ _ Ho). cbv beta iota.
    rewrite (bind_Returned _ _ _ _ _ Hn). cbv beta iota.
    rewrite (bind_Returned _ _ _ _ _ Hl). cbv beta iota.
    fold p. rewrite (bind_Returned _ _ _ _ _ Hc). cbv beta iota.
    rewrite (bind_Returned _ _ _ _ _ (removeSchemaUpdatesListener_eq stationName w2)).
    unfold w3. rewrite removeSchemaUpdatesListener_eq. simpl.
    now destruct (fst (relayRemove (conn w2) stationName)).
  - unfold w3. now rewrite removeSchemaUpdatesListener_eq.
  - unfold w3. now rewrite removeSchemaUpdatesListener_eq.
  - intros resp cr Ht Hj He.
    rewrite (create_rejected p w1 resp cr Ht Hj He) in Hc.
    unfold errors_New in Hc. congruence.
Qed.

(** ** Destruction *)

(** C3.  [Destroy] first calls [removeSchemaUpdatesListener] for the
    station of the producer.  If that fails, [Destroy] panics with the
    error: it does not return, and the removal is the last thing that went
    over the connection, no destruction request is sent.  If it succeeds,
    the destruction request [{name, station}] is sent next, on the
    destruction subject, and the error of the request is returned. *)
Theorem Destroy_removes_then_requests (p : Producer.t) (w : World) :
  let stationName := Producer.stationName p in
  let w1 := snd (removeSchemaUpdatesListener stationName w) in
  (forall e : string,
     fst (relayRemove (conn w) stationName) = Some e ->
     Destroy p w = (Panicked e, w1) /\
     brokerConn (conn w1) =
       (brokerConn (conn w) ++ [CallRemoveListener stationName])%list) /\
  (fst (relayRemove (conn w) stationName) = None ->
   exists w2 : World,
     Destroy p w =
       (Returned (snd (transportRequest (conn w1) (getDestructionSubject p)
                         (getDestructionReq p))), w2) /\
     brokerConn (conn w2) =
       (brokerConn (conn w) ++
        [CallRemoveListener stationName;
         CallRequest "$memphis_producer_destructions"
           (DestructionReq {| removeProducerReq.Name := Producer.Name p;
                              removeProducerReq.StationName := stationName |})])%list).
Proof.
  intros stationName w1. split.
  - intros e He. unfold Destroy.
    rewrite (bind_Returned _ _ _ _ _ (removeSchemaUpdatesListener_eq stationName w)).
    fold stationName. rewrite He. unfold w1.
    rewrite removeSchemaUpdatesListener_eq. split; reflexivity.
  - intros He. unfold Destroy.
    rewrite (bind_Returned _ _ _ _ _ (removeSchemaUpdatesListener_eq stationName w)).
    fold stationName. rewrite He. unfold w1.
    rewrite removeSchemaUpdatesListener_eq. simpl.
    unfold destroy, brokerRequest. go_step.
    destruct (transportRequest _ _ _) as [resp err]. simpl.
    eexists. split; [reflexivity|]. simpl. now rewrite <- app_assoc.
Qed.

End LifecycleClaims.

(** ** The random suffix *)

Lemma hexEncodeByte_shape (b : byte) :
  exists c1 c2 : ascii,
    hexEncodeByte b = String c1 (String c2 EmptyString) /\
    isHexDigit c1 = true /\ isHexDigit c2 = true.
Proof. destruct b; do 2 eexists; repeat split. Qed.

Lemma hex_EncodeToString_length (src : list byte) :
  String.length (hex_EncodeToString src) = (2 * length src)%nat.
Proof.
  induction src as [|b src IH]; [reflexivity|].
  destruct (hexEncodeByte_shape b) as (c1 & c2 & E & _).
  simpl hex_EncodeToString. rewrite E.
  change (S (S (String.length (hex_EncodeToString src))) = (2 * S (length src))%nat).
  rewrite IH. lia.
Qed.

Lemma hex_EncodeToString_digits (src : list byte) :
  all_chars isHexDigit (hex_EncodeToString src) = true.
Proof.
  induction src as [|b src IH]; [reflexivity|].
  destruct (hexEncodeByte_shape b) as (c1 & c2 & E & H1 & H2).
  simpl hex_EncodeToString. rewrite E.
  change (isHexDigit c1 && (isHexDigit c2 && all_chars isHexDigit (hex_EncodeToString src))
          = true).
  now rewrite H1, H2, IH.
Qed.

Lemma randomHex_ok (n : nat) (w : World) :
  (n <= length (entropy w))%nat ->
  randomHex n w =
    (Returned (hex_EncodeToString (take n (entropy w)), None),
     set_entropy (drop n (entropy w)) w).
Proof.
  intros H. unfold randomHex.
  destruct (decide (n <= length (entropy w))%nat); [reflexivity|contradiction].
Qed.

Section NameClaim.
Context `{Ext : Externals}.

(** C8.  Let the options apply to [o], the relay be registered and the
    creation request succeed.  If [o] has [GenUniqueSuffix] set and the
    random source delivers its 4 bytes, [CreateProducer] returns a producer
    whose name is the requested name, an underscore and a suffix of exactly
    8 hexadecimal characters; if it is not set, as in the default options,
    the producer has the requested name.  The option
    [ProducerGenUniqueSuffix] sets it. *)
Theorem CreateProducer_name (stationName name : string)
    (opts : list (option ProducerOpt)) (o : ProducerOpts.t) (w w1 w2 : World) :
  applyProducerOpts opts getDefaultProducerOpts w = (Returned (o, None), w) ->
  (ProducerOpts.GenUniqueSuffix o = true -> (4 <= length (entropy w))%nat) ->
  let suffix := hex_EncodeToString (take 4 (entropy w)) in
  let name' := if ProducerOpts.GenUniqueSuffix o then name +:+ "_" +:+ suffix else name in
  let w0 := if ProducerOpts.GenUniqueSuffix o
            then set_entropy (drop 4 (entropy w)) w else w in
  let p := {| Producer.Name := name'; Producer.stationName := stationName |} in
  listenToSchemaUpdates stationName w0 = (Returned None, w1) ->
  create p w1 = (Returned None, w2) ->
  CreateProducer stationName name opts w = (Returned (Some p, None), w2) /\
  (ProducerOpts.GenUniqueSuffix o = true ->
   Producer.Name p = name +:+ "_" +:+ suffix /\
   String.length suffix = 8%nat /\
   all_chars isHexDigit suffix = true) /\
  (ProducerOpts.GenUniqueSuffix o = false -> Producer.Name p = name) /\
  ProducerOpts.GenUniqueSuffix getDefaultProducerOpts = false /\
  ProducerOpts.GenUniqueSuffix (fst (ProducerGenUniqueSuffix getDefaultProducerOpts))
    = true.
Proof.
  intros Ho Hr suffix name' w0 p Hl Hc.
  split; [|split; [|split; [|split]]]; try reflexivity.
  - unfold CreateProducer.
    rewrite (bind_Returned _ _ _ _ _ Ho). cbv beta iota.
    assert (Hn : (if ProducerOpts.GenUniqueSuffix o
                  then extendNameWithRandSuffix name
                  else mret (name, None)) w = (Returned (name', None), w0)).
    { unfold name', w0. destruct (ProducerOpts.GenUniqueSuffix o); [|reflexivity].
      unfold extendNameWithRandSuffix.
      rewrite (bind_Returned _ _ _ _ _ (randomHex_ok 4 w (Hr eq_refl))).
      reflexivity. }
    rewrite (bind_Returned _ _ _ _ _ Hn). cbv beta iota.
    rewrite (bind_Returned _ _ _ _ _ Hl). cbv beta iota.
    fold p. rewrite (bind_Returned _ _ _ _ _ Hc). reflexivity.
  - intros Hg. unfold p, name'. rewrite Hg. simpl. split; [reflexivity|].
    split.
    + unfold suffix. rewrite hex_EncodeToString_length, length_take.
      specialize (Hr Hg). lia.
    + apply hex_EncodeToString_digits.
  - intros Hg. unfold p, name'. now rewrite Hg.
Qed.

End NameClaim.

(** * The properties at work on the example broker *)

Lemma demo_no_schema (reply : list byte * error)
    (decoded : createProducerResp.t * error) (removeErr : error)
    (ack : PubAckFuture * error) :
  @no_schema (demoExternals reply decoded removeErr ack) demoProducer (conn demoWorld).
Proof. exists EmptyString. split; reflexivity. Qed.

Lemma Add_reserved_iff_and_overwrite_witness :
  exists w' : World,
    Add {| Headers.MsgHeaders := Some 1%positive |} "trace" "t-8" demoWorld
      = (Returned None, w') /\
    maps w' !! 1%positive = Some (<["trace" := ["t-8"]]> {[ "trace" := ["t-7"] ]}).
Proof.
  destruct (Add_reserved_iff_and_overwrite 1%positive {[ "trace" := ["t-7"] ]}
              "trace" "t-8" demoWorld eq_refl) as (_ & _ & H).
  destruct H as (w' & H1 & H2 & _).
  - intros [rest R]. discriminate R.
  - exists w'. split; [exact H1 | exact H2].
Defined.

Lemma produce_without_schema_witness :
  @validateMsg demoOk demoProducer (AnyBytes [x68; x69]) demoWorld
    = (Returned ([x68; x69], None), demoWorld) /\
  exists w' : World,
    @produce demoOk (demoOpts (AnyString "hello") false) demoProducer demoWorld
      = (Returned (Some "Unsupported message type"), w') /\
    conn w' = conn demoWorld.
Proof.
  destruct (@produce_without_schema demoOk demoProducer demoWorld
              (demo_no_schema ([], None) demoAccepted None (AckOk, None))) as (Hb & Ho & _).
  split; [apply Hb|].
  apply (Ho (demoOpts (AnyString "hello") false) 1%positive); reflexivity.
Defined.

Lemma produce_async_or_await_witness :
  fst (@produce demoSilent (demoOpts (AnyBytes [x68; x69]) true) demoProducer demoWorld)
    = Returned None /\
  fst (@produce demoSilent (demoOpts (AnyBytes [x68; x69]) false) demoProducer demoWorld)
    = Blocked /\
  fst (@produce demoNack (demoOpts (AnyBytes [x68; x69]) false) demoProducer demoWorld)
    = Returned (Some "nats: timeout").
Proof.
  split; [|split].
  - destruct (@produce_async_or_await demoSilent
                (demoOpts (AnyBytes [x68; x69]) true) demoProducer demoWorld
                1%positive [x68; x69] AckPending None eq_refl eq_refl eq_refl)
      as (_ & H & _).
    now rewrite (H eq_refl eq_refl).
  - destruct (@produce_async_or_await demoSilent
                (demoOpts (AnyBytes [x68; x69]) false) demoProducer demoWorld
                1%positive [x68; x69] AckPending None eq_refl eq_refl eq_refl)
      as (_ & _ & H).
    now rewrite (H eq_refl eq_refl).
  - destruct (@produce_async_or_await demoNack
                (demoOpts (AnyBytes [x68; x69]) false) demoProducer demoWorld
                1%positive [x68; x69] (AckErr (Some "nats: timeout")) None
                eq_refl eq_refl eq_refl)
      as (_ & _ & H).
    now rewrite (H eq_refl eq_refl).
Defined.

Lemma default_opts_and_stall_wait_witness :
  brokerConn (conn (snd (@produce demoOk (demoOpts (AnyBytes [x68; x69]) false)
                           demoProducer demoWorld)))
    = [CallPublish (@outgoing demoOk 1%positive demoProducer [x68; x69] demoWorld)
         5000000000] /\
  Duration_mul time_Second (Duration_of_int 9223372036) = 9223372036000000000.
Proof.
  destruct (@default_opts_and_stall_wait demoOk) as (_ & Hp & Hs & _).
  split.
  - apply (Hp (demoOpts (AnyBytes [x68; x69]) false) demoProducer demoWorld
             1%positive [x68; x69]); reflexivity.
  - apply (Hs 9223372036). lia.
Defined.

Lemma produce_stamps_caller_headers_witness :
  exists w' : World,
    @Produce demoOk demoProducer (AnyInt 3)
      [Some (MsgHeaders {| Headers.MsgHeaders := Some 1%positive |})] demoWorld
      = (Returned (Some "Unsupported message type"), w') /\
    maps w' !! 1%positive =
      Some (<["$memphis_producedBy" := ["p1"]]>
              (<["$memphis_connectionId" := ["conn-1"]]> {[ "trace" := ["t-7"] ]})).
Proof.
  destruct (@produce_stamps_caller_headers demoOk demoProducer demoWorld 1%positive
              {[ "trace" := ["t-7"] ]} eq_refl) as (_ & _ & H & _).
  apply (H (AnyInt 3) (demo_no_schema ([], None) demoAccepted None (AckOk, None)) eq_refl).
Defined.

Lemma handleCreationResp_enqueues_Init_witness :
  (exists w' : World,
     @handleCreationResp demoOk demoProducer [] demoWorld = (Returned None, w') /\
     stationUpdatesSubs (conn w') !! "orders" =
       Some {| schemaUpdateCh :=
                 [{| SchemaUpdate.UpdateType := 1; SchemaUpdate.Init := demoInit |}] |}) /\
  @handleCreationResp demoRejecting demoProducer [] demoWorld
    = (Returned (Some "station does not exist"), demoWorld).
Proof.
  split.
  - destruct (@handleCreationResp_enqueues_Init demoOk demoProducer [] _ demoWorld
                eq_refl) as (H & _).
    destruct (H eq_refl {| schemaUpdateCh := [] |} eq_refl) as (w' & H1 & H2 & _).
    exists w'. split; [exact H1 | exact H2].
  - destruct (@handleCreationResp_enqueues_Init demoRejecting demoProducer [] _
                demoWorld eq_refl) as (_ & H).
    apply H. discriminate.
Defined.

Lemma CreateProducer_rolls_back_witness :
  fst (@CreateProducer demoRejecting "orders" "p2" [] demoWorld)
    = Returned (None, Some "no active listener") /\
  brokerConn (conn (snd (@CreateProducer demoRejecting "orders" "p2" [] demoWorld)))
    = [CallListen "orders";
       CallRequest "$memphis_producer_creations"
         (CreationReq {| createProducerReq.Name := "p2";
                         createProducerReq.StationName := "orders";
                         createProducerReq.ConnectionId := "conn-1";
                         createProducerReq.ProducerType := "application" |});
       CallRemoveListener "orders"].
Proof.
  pose (w1 := snd (@listenToSchemaUpdates demoRejecting "orders" demoWorld)).
  pose (p := {| Producer.Name := "p2"; Producer.stationName := "orders" |}).
  pose (w2 := snd (@create demoRejecting p w1)).
  destruct (@CreateProducer_rolls_back demoRejecting "orders" "p2" "p2" []
              getDefaultProducerOpts demoWorld demoWorld w1 w2
              "station does not exist" eq_refl eq_refl eq_refl eq_refl)
    as (H & Hlog & _).
  rewrite H. split; [reflexivity | exact Hlog].
Defined.

Lemma Destroy_removes_then_requests_witness :
  fst (@Destroy demoRejecting demoProducer demoWorld) = Panicked "no active listener" /\
  brokerConn (conn (snd (@Destroy demoRejecting demoProducer demoWorld)))
    = [CallRemoveListener "orders"] /\
  brokerConn (conn (snd (@Destroy demoOk demoProducer demoWorld)))
    = [CallRemoveListener "orders";
       CallRequest "$memphis_producer_destructions"
         (DestructionReq {| removeProducerReq.Name := "p1";
                            removeProducerReq.StationName := "orders" |})].
Proof.
  destruct (@Destroy_removes_then_requests demoRejecting demoProducer demoWorld)
    as (H & _).
  destruct (H "no active listener" eq_refl) as (H1 & H2).
  destruct (@Destroy_removes_then_requests demoOk demoProducer demoWorld)
    as (_ & H').
  destruct (H' eq_refl) as (w2 & H3 & H4).
  rewrite H1, H3. split; [reflexivity|]. split; [exact H2 | exact H4].
Defined.

Lemma CreateProducer_name_witness :
  fst (@CreateProducer demoOk "orders" "p2" [Some ProducerGenUniqueSuffix] demoWorld)
    = Returned (Some {| Producer.Name := "p2_001fa2ff";
                        Producer.stationName := "orders" |}, None) /\
  fst (@CreateProducer demoOk "orders" "p2" [] demoWorld)
    = Returned (Some {| Producer.Name := "p2";
                        Producer.stationName := "orders" |}, None).
Proof.
  split.
  - pose (w0 := set_entropy (drop 4 (entropy demoWorld)) demoWorld).
    pose (w1 := snd (@listenToSchemaUpdates demoOk "orders" w0)).
    pose (p := {| Producer.Name := "p2_001fa2ff"; Producer.stationName := "orders" |}).
    pose (w2 := snd (@create demoOk p w1)).
    destruct (@CreateProducer_name demoOk "orders" "p2" [Some ProducerGenUniqueSuffix]
                {| ProducerOpts.GenUniqueSuffix := true |} demoWorld w1 w2
                eq_refl ltac:(intros _; simpl; lia) eq_refl eq_refl) as (H & _).
    now rewrite H.
  - pose (w1 := snd (@listenToSchemaUpdates demoOk "orders" demoWorld)).
    pose (p := {| Producer.Name := "p2"; Producer.stationName := "orders" |}).
    pose (w2 := snd (@create demoOk p w1)).
    destruct (@CreateProducer_name demoOk "orders" "p2" []
                getDefaultProducerOpts demoWorld w1 w2
                eq_refl ltac:(intros H; discriminate H) eq_refl eq_refl) as (H & _).
    now rewrite H.
Defined.

(** * Further properties of the code *)

(** ** Headers: overwriting, order, the reserved prefix *)

Lemma Add_free_world (hdr : Headers.t) (l : loc) (key value : string) (w : World) :
  Headers.MsgHeaders hdr = Some l ->
  ~ reserved key ->
  Add hdr key value w =
    (Returned None, set_maps (alter (insert key [value]) l (maps w)) w).
Proof.
  intros Hl R. unfold Add. rewrite (validateHeaderKey_free _ _ R), Hl. reflexivity.
Qed.

Lemma Add_reserved_world (hdr : Headers.t) (key value : string) (w : World) :
  reserved key ->
  Add hdr key value w =
    (Returned (errors_New "Keys in headers should not start with $memphis"), w).
Proof.
  intros R. unfold Add. now rewrite (validateHeaderKey_reserved _ _ R).
Qed.

(** X1.  Adding twice under one key keeps the second value only: the world
    after [Add key v1] and then [Add key v2] is the world after [Add key v2]
    alone. *)
Theorem Add_same_key_last_wins (l : loc) (key v1 v2 : string) (w : World) :
  let hdr := {| Headers.MsgHeaders := Some l |} in
  snd (Add hdr key v2 (snd (Add hdr key v1 w))) = snd (Add hdr key v2 w).
Proof.
  intros hdr. destruct (reserved_dec key) as [R|R].
  - now rewrite !(Add_reserved_world hdr key _ _ R).
  - rewrite !(Add_free_world hdr l key _ _ eq_refl R). simpl.
    unfold set_maps. simpl. f_equal.
    rewrite alter_alter_eq. apply alter_ext. intros m _. simpl.
    apply insert_insert_eq.
Qed.

(** X2.  Additions under different keys commute: the resulting world does
    not depend on the order of the two calls, whether or not one of the
    keys is refused. *)
Theorem Add_different_keys_commute (hdr : Headers.t) (k1 k2 v1 v2 : string)
    (w : World) :
  k1 <> k2 ->
  snd (Add hdr k2 v2 (snd (Add hdr k1 v1 w))) =
  snd (Add hdr k1 v1 (snd (Add hdr k2 v2 w))).
Proof.
  intros Hne. destruct hdr as [[l|]].
  - destruct (reserved_dec k1) as [R1|R1], (reserved_dec k2) as [R2|R2];
      repeat first
        [ rewrite (Add_reserved_world _ k1 _ _ R1)
        | rewrite (Add_reserved_world _ k2 _ _ R2)
        | rewrite (Add_free_world {| Headers.MsgHeaders := Some l |} l k1 _ _ eq_refl R1)
        | rewrite (Add_free_world {| Headers.MsgHeaders := Some l |} l k2 _ _ eq_refl R2) ];
      simpl; try reflexivity.
    unfold set_maps. simpl. f_equal.
    rewrite !alter_alter_eq. apply alter_ext. intros m _. simpl.
    apply insert_insert_ne. congruence.
  - destruct (reserved_dec k1) as [R1|R1], (reserved_dec k2) as [R2|R2];
      repeat first
        [ rewrite (Add_reserved_world _ k1 _ _ R1)
        | rewrite (Add_reserved_world _ k2 _ _ R2)
        | rewrite (Add_nil_map k1 _ _ R1)
        | rewrite (Add_nil_map k2 _ _ R2) ];
      reflexivity.
Qed.

Lemma Add_different_keys_commute_witness :
  snd (Add {| Headers.MsgHeaders := Some 1%positive |} "b" "2"
         (snd (Add {| Headers.MsgHeaders := Some 1%positive |} "a" "1" demoWorld))) =
  snd (Add {| Headers.MsgHeaders := Some 1%positive |} "a" "1"
         (snd (Add {| Headers.MsgHeaders := Some 1%positive |} "b" "2" demoWorld))).
Proof.
  apply (Add_different_keys_commute {| Headers.MsgHeaders := Some 1%positive |}
           "a" "b" "1" "2" demoWorld).
  discriminate.
Defined.

Lemma no_reserved_keys_insert (m : gmap string (list string)) (key : string)
    (value : list string) :
  no_reserved_keys m -> ~ reserved key -> no_reserved_keys (<[key := value]> m).
Proof.
  intros Hm R k Rk. rewrite lookup_insert_ne; [now apply Hm|].
  intros ->. contradiction.
Qed.

(** X3.  [Add] keeps a table free of reserved keys: if no key of the table
    starts with the reserved prefix before the call, none does after it,
    whatever the key and whether the call succeeds or not.  The table [New]
    makes is such a table. *)
Theorem Add_keeps_reserved_keys_out (l : loc) (m : gmap string (list string))
    (key value : string) (w : World) :
  maps w !! l = Some m ->
  no_reserved_keys m ->
  (exists m' : gmap string (list string),
     maps (snd (Add {| Headers.MsgHeaders := Some l |} key value w)) !! l = Some m' /\
     no_reserved_keys m') /\
  (forall hdr : Headers.t,
   exists (l0 : loc) (m0 : gmap string (list string)),
     fst (New hdr w) = Returned {| Headers.MsgHeaders := Some l0 |} /\
     maps (snd (New hdr w)) !! l0 = Some m0 /\ no_reserved_keys m0).
Proof.
  intros Hl Hm. split.
  - destruct (reserved_dec key) as [R|R].
    + rewrite (Add_reserved_world _ key value w R). now exists m.
    + rewrite (Add_free_world {| Headers.MsgHeaders := Some l |} l key value w eq_refl R). simpl.
      exists (<[key := [value]]> m). split.
      * now rewrite lookup_alter_eq, Hl.
      * now apply no_reserved_keys_insert.
  - intros hdr. exists (fresh (dom (maps w))), ∅. split; [reflexivity|]. split.
    + simpl. apply lookup_insert_eq.
    + intros k _. apply lookup_empty.
Qed.

Lemma Add_keeps_reserved_keys_out_witness :
  exists m' : gmap string (list string),
    maps (snd (Add {| Headers.MsgHeaders := Some 1%positive |}
                 "$memphis_producedBy" "me" demoWorld)) !! 1%positive = Some m' /\
    no_reserved_keys m'.
Proof.
  destruct (Add_keeps_reserved_keys_out 1%positive {[ "trace" := ["t-7"] ]}
              "$memphis_producedBy" "me" demoWorld eq_refl) as [H _].
  - intros k [rest ->]. reflexivity.
  - exact H.
Defined.

Lemma short_key_free (key : string) :
  (String.length key < 8)%nat -> ~ reserved key.
Proof.
  intros H [rest ->].
  change (String.length ("$memphis" +:+ rest)) with (8 + String.length rest)%nat in H.
  lia.
Qed.

(** X4.  A key shorter than the reserved prefix, the empty key included, is
    never refused: [Add] returns nil and stores the value under it. *)
Theorem Add_short_key_accepted (l : loc) (m : gmap string (list string))
    (key value : string) (w : World) :
  maps w !! l = Some m ->
  (String.length key < 8)%nat ->
  exists w' : World,
    Add {| Headers.MsgHeaders := Some l |} key value w = (Returned None, w') /\
    maps w' !! l = Some (<[key := [value]]> m).
Proof.
  intros Hl Hk. rewrite (Add_free_world {| Headers.MsgHeaders := Some l |} l key value w eq_refl (short_key_free _ Hk)).
  eexists. split; [reflexivity|]. simpl. now rewrite lookup_alter_eq, Hl.
Qed.

Lemma Add_short_key_accepted_witness :
  exists w' : World,
    Add {| Headers.MsgHeaders := Some 1%positive |} "" "v" demoWorld
      = (Returned None, w') /\
    maps w' !! 1%positive = Some (<["" := ["v"]]> {[ "trace" := ["t-7"] ]}).
Proof.
  apply (Add_short_key_accepted 1%positive {[ "trace" := ["t-7"] ]} "" "v" demoWorld).
  - reflexivity.
  - simpl. lia.
Defined.

(** X5.  [New] starts over: after [New] and an [Add] of a free key the table
    of the headers holds that one entry and nothing else, whatever the
    headers held before; the tables that existed before, the old one of
    these headers among them, keep their contents. *)
Theorem New_then_Add_single_entry (hdr : Headers.t) (key value : string) (w : World) :
  ~ reserved key ->
  exists (l : loc) (w' : World),
    (h ← New hdr; err ← Add h key value; mret (h, err)) w =
      (Returned ({| Headers.MsgHeaders := Some l |}, None), w') /\
    maps w' !! l = Some {[ key := [value] ]} /\
    (forall (l' : loc) (m : gmap string (list string)),
       maps w !! l' = Some m -> l' <> l /\ maps w' !! l' = Some m).
Proof.
  intros R. exists (fresh (dom (maps w))). eexists. split; [|split].
  - unfold New, make_map. go_step.
    rewrite (Add_free_world {| Headers.MsgHeaders := Some (fresh (dom (maps w))) |}
               (fresh (dom (maps w))) key value _ eq_refl R).
    reflexivity.
  - simpl. rewrite lookup_alter_eq, lookup_insert_eq. simpl.
    now rewrite insert_empty.
  - intros l' m Hl'.
    assert (Hne : l' <> fresh (dom (maps w))).
    { intros ->. rewrite make_map_fresh in Hl'. discriminate. }
    split; [exact Hne|]. simpl.
    rewrite lookup_alter_ne by congruence.
    now rewrite lookup_insert_ne by congruence.
Qed.

Lemma New_then_Add_single_entry_witness :
  exists (l : loc) (w' : World),
    (h ← New {| Headers.MsgHeaders := Some 1%positive |};
     err ← Add h "k" "v"; mret (h, err)) demoWorld =
      (Returned ({| Headers.MsgHeaders := Some l |}, None), w') /\
    maps w' !! l = Some {[ "k" := ["v"] ]} /\
    maps w' !! 1%positive = Some {[ "trace" := ["t-7"] ]}.
Proof.
  destruct (New_then_Add_single_entry {| Headers.MsgHeaders := Some 1%positive |}
              "k" "v" demoWorld) as (l & w' & H1 & H2 & H3).
  - intros [rest R]. discriminate R.
  - exists l, w'. split; [exact H1|]. split; [exact H2|].
    now apply (H3 1%positive {[ "trace" := ["t-7"] ]}).
Defined.

(** ** Producing: what a call touches, validation, the message sent *)

Section MoreProduce.
Context `{Ext : Externals}.

Lemma validateMsg_lookup_error (p : Producer.t) (msg : any) (w : World)
    (sd : schemaDetails) (e : string) :
  Conn_getSchemaDetails (conn w) (Producer.stationName p) = (sd, Some e) ->
  validateMsg p msg w = (Returned ([], Some e), w).
Proof.
  intros H. unfold validateMsg, getSchemaDetails. go_step. now rewrite H.
Qed.

Lemma validateMsg_active_schema (p : Producer.t) (msg : any) (w : World)
    (sd : schemaDetails) :
  Conn_getSchemaDetails (conn w) (Producer.stationName p) = (sd, None) ->
  schemaType sd <> EmptyString ->
  validateMsg p msg w = (Returned (validateProtoMsg sd msg), w).
Proof.
  intros H Hty. unfold validateMsg, getSchemaDetails. go_step. rewrite H.
  destruct (decide (schemaType sd = EmptyString)); [contradiction|reflexivity].
Qed.

(** Where a [produce] call leaves the world. *)
Lemma produce_world (opts : ProduceOpts.t) (p : Producer.t) (w : World) :
  match Headers.MsgHeaders (ProduceOpts.MsgHeaders opts) with
  | None => snd (produce opts p w) = w
  | Some l =>
      snd (produce opts p w) = stamp l p w \/
      exists (msg : Msg.t) (d : Duration),
        snd (produce opts p w) = after_call (CallPublish msg d) (stamp l p w)
  end.
Proof.
  destruct (Headers.MsgHeaders (ProduceOpts.MsgHeaders opts)) as [l|] eqn:Hl.
  - destruct (validateMsg_frame p (ProduceOpts.Message opts) w) as [[data [e|]] Hv].
    + left. now rewrite (produce_invalid opts p w l data e Hl Hv).
    + right. do 2 eexists. rewrite (produce_valid opts p w l data Hl Hv).
      destruct (transportPublish _ _ _) as [paf [e|]]; [reflexivity|].
      destruct (ProduceOpts.AsyncProduce opts); [reflexivity|].
      destruct paf; reflexivity.
  - now rewrite (produce_nil_map opts p w Hl).
Qed.

(** X6.  Whatever its options, its producer and its outcome, a [produce]
    call leaves the connection id, the relay registry and the random source
    as they were, and puts at most one entry, a publish, on the record of
    the connection. *)
Theorem produce_frame (opts : ProduceOpts.t) (p : Producer.t) (w : World) :
  ConnId (conn (snd (produce opts p w))) = ConnId (conn w) /\
  stationUpdatesSubs (conn (snd (produce opts p w))) = stationUpdatesSubs (conn w) /\
  entropy (snd (produce opts p w)) = entropy w /\
  (brokerConn (conn (snd (produce opts p w))) = brokerConn (conn w) \/
   exists (msg : Msg.t) (d : Duration),
     brokerConn (conn (snd (produce opts p w))) =
       (brokerConn (conn w) ++ [CallPublish msg d])%list).
Proof.
  pose proof (produce_world opts p w) as H.
  destruct (Headers.MsgHeaders (ProduceOpts.MsgHeaders opts)) as [l|].
  - destruct H as [-> | (msg & d & ->)].
    + repeat split. now left.
    + repeat split. right. now exists msg, d.
  - rewrite H. repeat split. now left.
Qed.

(** X7.  When the schema details of the station cannot be had, [produce]
    returns that error and nothing goes over the connection. *)
Theorem produce_schema_lookup_error (opts : ProduceOpts.t) (p : Producer.t)
    (w : World) (l : loc) (sd : schemaDetails) (e : string) :
  Headers.MsgHeaders (ProduceOpts.MsgHeaders opts) = Some l ->
  Conn_getSchemaDetails (conn w) (Producer.stationName p) = (sd, Some e) ->
  exists w' : World,
    produce opts p w = (Returned (Some e), w') /\ conn w' = conn w.
Proof.
  intros Hl Hs. exists (stamp l p w). split; [|reflexivity].
  apply produce_invalid with (data := []); [exact Hl|].
  now apply validateMsg_lookup_error with (sd := sd).
Qed.

(** X8.  With an active schema every payload, a [[]byte] one too, goes to
    the validator of the schema: if the validator fails, [produce] returns
    its error and nothing goes over the connection; if it succeeds, the
    message published carries the bytes the validator returned. *)
Theorem produce_with_active_schema (opts : ProduceOpts.t) (p : Producer.t)
    (w : World) (l : loc) (sd : schemaDetails) (data : list byte) (err : error) :
  Headers.MsgHeaders (ProduceOpts.MsgHeaders opts) = Some l ->
  Conn_getSchemaDetails (conn w) (Producer.stationName p) = (sd, None) ->
  schemaType sd <> EmptyString ->
  validateProtoMsg sd (ProduceOpts.Message opts) = (data, err) ->
  (forall e : string,
     err = Some e ->
     exists w' : World,
       produce opts p w = (Returned (Some e), w') /\ conn w' = conn w) /\
  (err = None ->
   exists (header : gmap string (list string)) (d : Duration),
     brokerConn (conn (snd (produce opts p w))) =
       (brokerConn (conn w) ++
        [CallPublish {| Msg.Header := header;
                        Msg.Subject :=
                          getInternalName (Producer.stationName p) +:+ ".final";
                        Msg.Data := data |} d])%list).
Proof.
  intros Hl Hs Hty Hv.
  pose proof (validateMsg_active_schema p (ProduceOpts.Message opts) w sd Hs Hty) as V.
  rewrite Hv in V. split.
  - intros e ->. exists (stamp l p w). split; [|reflexivity].
    now apply produce_invalid with (data := data).
  - intros ->. do 2 eexists.
    rewrite (produce_valid opts p w l data Hl V).
    destruct (transportPublish _ _ _) as [paf [e|]]; [reflexivity|].
    destruct (ProduceOpts.AsyncProduce opts); [reflexivity|].
    destruct paf; reflexivity.
Qed.

(** X9.  [Produce] of a [[]byte] payload without options, on a station
    with no schema, publishes one message: its header holds the connection
    id and the producer name under the two reserved keys and nothing else,
    its subject is the internal name of the station followed by ".final",
    its data are the payload, and the stall wait is 15 s.  The call returns
    the error of the submission or, after a successful submission, what the
    future delivers. *)
Theorem Produce_bytes_without_options (p : Producer.t) (b : list byte) (w : World) :
  no_schema p (conn w) ->
  let msg :=
    {| Msg.Header :=
         <["$memphis_producedBy" := [Producer.Name p]]>
           (<["$memphis_connectionId" := [ConnId (conn w)]]> ∅);
       Msg.Subject := getInternalName (Producer.stationName p) +:+ ".final";
       Msg.Data := b |} in
  brokerConn (conn (snd (Produce p (AnyBytes b) [] w))) =
    (brokerConn (conn w) ++ [CallPublish msg 15000000000])%list /\
  fst (Produce p (AnyBytes b) [] w) =
    match transportPublish (conn w) msg 15000000000 with
    | (_, Some e) => Returned (Some e)
    | (AckOk, None) => Returned None
    | (AckErr e, None) => Returned e
    | (AckPending, None) => Blocked
    end.
Proof.
  intros Hs msg. rewrite Produce_default.
  set (l := fresh (dom (maps w))).
  set (w0 := set_maps (<[l := ∅]> (maps w)) w).
  set (opts := {| ProduceOpts.Message := AnyBytes b;
                  ProduceOpts.AckWaitSec := 15;
                  ProduceOpts.MsgHeaders := {| Headers.MsgHeaders := Some l |};
                  ProduceOpts.AsyncProduce := false |}).
  assert (Hv : validateMsg p (ProduceOpts.Message opts) w0 = (Returned (b, None), w0))
    by now apply validateMsg_no_schema_bytes.
  assert (Hm : outgoing l p b w0 = msg).
  { unfold outgoing, msg. f_equal.
    rewrite (stamp_lookup l p w0 ∅); [reflexivity|].
    unfold w0. simpl. apply lookup_insert_eq. }
  rewrite (produce_valid opts p w0 l b eq_refl Hv). rewrite Hm.
  change (Duration_mul time_Second (Duration_of_int (ProduceOpts.AckWaitSec opts)))
    with 15000000000.
  change (conn w0) with (conn w).
  destruct (transportPublish (conn w) msg 15000000000) as [paf [e|]];
    simpl; destruct paf; split; reflexivity.
Qed.

(** X10.  Headers used for two [produce] calls in a row: after the second
    call the table holds the caller's entries and the provenance of the
    second call only, as if the first call had not been made. *)
Theorem produce_twice_restamps (opts1 opts2 : ProduceOpts.t) (p1 p2 : Producer.t)
    (w w1 : World) (l : loc) (m : gmap string (list string)) (r : error) :
  maps w !! l = Some m ->
  Headers.MsgHeaders (ProduceOpts.MsgHeaders opts1) = Some l ->
  Headers.MsgHeaders (ProduceOpts.MsgHeaders opts2) = Some l ->
  produce opts1 p1 w = (Returned r, w1) ->
  maps (snd (produce opts2 p2 w1)) !! l =
    Some (<["$memphis_producedBy" := [Producer.Name p2]]>
            (<["$memphis_connectionId" := [ConnId (conn w)]]> m)) /\
  maps (snd (produce opts2 p2 w1)) !! l = maps (snd (produce opts2 p2 w)) !! l.
Proof.
  intros Hm H1 H2 Hp.
  assert (Hmaps : forall (opts : ProduceOpts.t) (p : Producer.t) (w0 : World),
             Headers.MsgHeaders (ProduceOpts.MsgHeaders opts) = Some l ->
             maps (snd (produce opts p w0)) = maps (stamp l p w0)).
  { intros opts p w0 Hl. pose proof (produce_world opts p w0) as H.
    rewrite Hl in H. destruct H as [-> | (msg & d & ->)]; reflexivity. }
  assert (Hw1 : maps w1 = maps (stamp l p1 w) /\ ConnId (conn w1) = ConnId (conn w)).
  { pose proof (produce_world opts1 p1 w) as H. rewrite H1, Hp in H. simpl in H.
    destruct H as [-> | (msg & d & ->)]; now split. }
  destruct Hw1 as [E1 F1].
  rewrite !(Hmaps opts2 p2 _ H2).
  rewrite (stamp_lookup l p2 w m Hm).
  assert (Hl1 : maps w1 !! l =
                Some (<["$memphis_producedBy" := [Producer.Name p1]]>
                        (<["$memphis_connectionId" := [ConnId (conn w)]]> m))).
  { rewrite E1. now apply stamp_lookup. }
  rewrite (stamp_lookup l p2 w1 _ Hl1), F1.
  assert (Hins :
    <["$memphis_producedBy" := [Producer.Name p2]]>
      (<["$memphis_connectionId" := [ConnId (conn w)]]>
         (<["$memphis_producedBy" := [Producer.Name p1]]>
            (<["$memphis_connectionId" := [ConnId (conn w)]]> m))) =
    <["$memphis_producedBy" := [Producer.Name p2]]>
      (<["$memphis_connectionId" := [ConnId (conn w)]]> m)).
  { apply map_eq. intros k. rewrite !lookup_insert.
    repeat case_decide; reflexivity. }
  rewrite Hins. split; reflexivity.
Qed.

(** X11.  The ack-wait seconds are not checked: from 9223372037 seconds on
    (up to 18446744073) the [int64] product with [time.Second] wraps, and
    the stall wait handed to the transport is negative. *)
Theorem produce_stall_wait_overflow (opts : ProduceOpts.t) (p : Producer.t)
    (w : World) (l : loc) (data : list byte) :
  Headers.MsgHeaders (ProduceOpts.MsgHeaders opts) = Some l ->
  validateMsg p (ProduceOpts.Message opts) w = (Returned (data, None), w) ->
  9223372037 <= ProduceOpts.AckWaitSec opts <= 18446744073 ->
  let d := ProduceOpts.AckWaitSec opts * 1000000000 - 2 ^ 64 in
  brokerConn (conn (snd (produce opts p w))) =
    (brokerConn (conn w) ++ [CallPublish (outgoing l p data w) d])%list /\
  d < 0.
Proof.
  intros Hl Hv Hs d.
  assert (Hd : Duration_mul time_Second (Duration_of_int (ProduceOpts.AckWaitSec opts))
               = d).
  { unfold Duration_mul, Duration_of_int, time_Second, d.
    rewrite (wrap64_small (ProduceOpts.AckWaitSec opts)) by lia.
    unfold wrap64.
    set (s := ProduceOpts.AckWaitSec opts) in *.
    replace (1000000000 * s + 2 ^ 63) with ((1000000000 * s - 2 ^ 63) + 1 * 2 ^ 64)
      by lia.
    rewrite Z.mod_add by lia. rewrite Z.mod_small by lia. lia. }
  split; [|unfold d; lia].
  rewrite (produce_valid opts p w l data Hl Hv). rewrite Hd.
  destruct (transportPublish _ _ _) as [paf [e|]]; [reflexivity|].
  destruct (ProduceOpts.AsyncProduce opts); [reflexivity|].
  destruct paf; reflexivity.
Qed.

End MoreProduce.

(** ** Options *)

Lemma applyProduceOpts_app (l1 l2 : list (option ProduceOpt)) (o : ProduceOpts.t) :
  applyProduceOpts (l1 ++ l2) o =
    match applyProduceOpts l1 o with
    | (o', Some e) => (o', Some e)
    | (o', None) => applyProduceOpts l2 o'
    end.
Proof.
  revert o. induction l1 as [|[opt|] l1 IH]; intros o; simpl.
  - reflexivity.
  - destruct (opt o) as [o' [e|]]; [reflexivity|]. apply IH.
  - apply IH.
Qed.


Section MoreOptions.
Context `{Ext : Externals}.

Lemma Produce_unfold (p : Producer.t) (message : any)
    (opts : list (option ProduceOpt)) (w : World) :
  let l := fresh (dom (maps w)) in
  let w0 := set_maps (<[l := ∅]> (maps w)) w in
  let d0 := {| ProduceOpts.Message := message;
               ProduceOpts.AckWaitSec := 15;
               ProduceOpts.MsgHeaders := {| Headers.MsgHeaders := Some l |};
               ProduceOpts.AsyncProduce := false |} in
  Produce p message opts w =
    match applyProduceOpts opts d0 with
    | (_, Some e) => (Returned (Some e), w0)
    | (o, None) => produce o p w0
    end.
Proof.
  intros l w0 d0. unfold Produce, getDefaultProduceOpts, make_map. go_step.
  fold l. fold w0. fold d0.
  now destruct (applyProduceOpts opts d0) as [o [e|]].
Qed.

(** X12.  [Produce] skips nil options: a nil anywhere in the option list
    makes no difference to the call. *)
Theorem Produce_skips_nil_options (p : Producer.t) (message : any)
    (pre post : list (option ProduceOpt)) (w : World) :
  Produce p message (pre ++ None :: post) w = Produce p message (pre ++ post) w.
Proof.
  rewrite !Produce_unfold. cbv zeta.
  rewrite !(applyProduceOpts_app pre). 
  now destruct (applyProduceOpts pre _) as [o [e|]].
Qed.

(** X13.  Among the options of this file only the last one of a kind
    counts, and options of different kinds can be given in any order:
    [AckWaitSec], [MsgHeaders] and [AsyncProduce] each set their own field
    and never fail. *)
Theorem Produce_builtin_options_order (p : Producer.t) (message : any)
    (opts : list (option ProduceOpt)) (a b : Z) (h1 h2 : Headers.t) (w : World) :
  Produce p message (opts ++ [Some (AckWaitSec a); Some (AckWaitSec b)]) w =
    Produce p message (opts ++ [Some (AckWaitSec b)]) w /\
  Produce p message (opts ++ [Some (MsgHeaders h1); Some (MsgHeaders h2)]) w =
    Produce p message (opts ++ [Some (MsgHeaders h2)]) w /\
  Produce p message (opts ++ [Some AsyncProduce; Some AsyncProduce]) w =
    Produce p message (opts ++ [Some AsyncProduce]) w /\
  Produce p message (opts ++ [Some (AckWaitSec a); Some AsyncProduce]) w =
    Produce p message (opts ++ [Some AsyncProduce; Some (AckWaitSec a)]) w /\
  Produce p message (opts ++ [Some (AckWaitSec a); Some (MsgHeaders h1)]) w =
    Produce p message (opts ++ [Some (MsgHeaders h1); Some (AckWaitSec a)]) w /\
  Produce p message (opts ++ [Some (MsgHeaders h1); Some AsyncProduce]) w =
    Produce p message (opts ++ [Some AsyncProduce; Some (MsgHeaders h1)]) w.
Proof.
  repeat split; rewrite !Produce_unfold; cbv zeta;
    rewrite !(applyProduceOpts_app opts);
    destruct (applyProduceOpts opts _) as [o [e|]]; reflexivity.
Qed.

(** X14.  When an option fails, [Produce] returns its error before
    anything else is done: nothing goes over the connection and no table
    that existed before the call is written to. *)
Theorem Produce_option_error (p : Producer.t) (message : any)
    (opts : list (option ProduceOpt)) (w : World) (o : ProduceOpts.t) (e : string) :
  applyProduceOpts opts
    {| ProduceOpts.Message := message;
       ProduceOpts.AckWaitSec := 15;
       ProduceOpts.MsgHeaders := {| Headers.MsgHeaders := Some (fresh (dom (maps w))) |};
       ProduceOpts.AsyncProduce := false |} = (o, Some e) ->
  exists w' : World,
    Produce p message opts w = (Returned (Some e), w') /\
    conn w' = conn w /\
    (forall (l : loc) (m : gmap string (list string)),
       maps w !! l = Some m -> maps w' !! l = Some m).
Proof.
  intros H. rewrite Produce_unfold. cbv zeta. rewrite H.
  eexists. split; [reflexivity|]. split; [reflexivity|].
  intros l m Hl. simpl. rewrite lookup_insert_ne; [exact Hl|].
  intros E. rewrite <- E, make_map_fresh in Hl. discriminate.
Qed.

(** X15.  Unless the options replace the headers, [Produce] writes its
    provenance headers into a table of its own: whatever the outcome, the
    tables that existed before the call keep their contents. *)
Theorem Produce_without_MsgHeaders_keeps_tables (p : Producer.t) (message : any)
    (opts : list (option ProduceOpt)) (w : World) (o : ProduceOpts.t) (err : error) :
  applyProduceOpts opts
    {| ProduceOpts.Message := message;
       ProduceOpts.AckWaitSec := 15;
       ProduceOpts.MsgHeaders := {| Headers.MsgHeaders := Some (fresh (dom (maps w))) |};
       ProduceOpts.AsyncProduce := false |} = (o, err) ->
  ProduceOpts.MsgHeaders o = {| Headers.MsgHeaders := Some (fresh (dom (maps w))) |} ->
  forall (l : loc) (m : gmap string (list string)),
    maps w !! l = Some m ->
    maps (snd (Produce p message opts w)) !! l = Some m.
Proof.
  intros H Ho l m Hl. rewrite Produce_unfold. cbv zeta. rewrite H.
  assert (Hne : l <> fresh (dom (maps w))).
  { intros E. rewrite E, make_map_fresh in Hl. discriminate. }
  set (w0 := set_maps (<[fresh (dom (maps w)) := ∅]> (maps w)) w).
  assert (H0 : maps w0 !! l = Some m).
  { unfold w0. simpl. now rewrite lookup_insert_ne by congruence. }
  destruct err as [e|]; [exact H0|].
  pose proof (produce_world o p w0) as Hw. rewrite Ho in Hw. simpl in Hw.
  destruct Hw as [-> | (msg & d & ->)]; simpl;
    rewrite !lookup_alter_ne by congruence; exact H0.
Qed.

(** ** Creation: the steps before the request *)


(** X17.  [CreateProducer] stops at the first step that fails and returns
    its error and no producer: a failing option or a failing random source
    ends the call before anything goes over the connection, and a failing
    registration of the relay ends it before the creation request; in none
    of these cases is a listener removed. *)
Theorem CreateProducer_early_failures (stationName name : string)
    (opts : list (option ProducerOpt)) (o : ProducerOpts.t) (w : World) (e : string) :
  (applyProducerOpts opts getDefaultProducerOpts w = (Returned (o, Some e), w) ->
   CreateProducer stationName name opts w = (Returned (None, Some e), w)) /\
  (forall (s : string) (w0 : World),
     applyProducerOpts opts getDefaultProducerOpts w = (Returned (o, None), w) ->
     ProducerOpts.GenUniqueSuffix o = true ->
     randomHex 4 w = (Returned (s, Some e), w0) ->
     CreateProducer stationName name opts w = (Returned (None, Some e), w0)) /\
  (forall (name' : string) (w0 : World),
     applyProducerOpts opts getDefaultProducerOpts w = (Returned (o, None), w) ->
     (if ProducerOpts.GenUniqueSuffix o
      then extendNameWithRandSuffix name
      else mret (name, None)) w = (Returned (name', None), w0) ->
     fst (relayListen (conn w0) stationName) = Some e ->
     exists w1 : World,
       CreateProducer stationName name opts w = (Returned (None, Some e), w1) /\
       brokerConn (conn w1) = (brokerConn (conn w0) ++ [CallListen stationName])%list).
Proof.
  split; [|split].
  - intros Ho. unfold CreateProducer.
    now rewrite (bind_Returned _ _ _ _ _ Ho).
  - intros s w0 Ho Hg Hr. unfold CreateProducer.
    rewrite (bind_Returned _ _ _ _ _ Ho). cbv beta iota. rewrite Hg.
    unfold extendNameWithRandSuffix.
    rewrite (bind_Returned _ _ _ _ _
               (bind_Returned _ _ _ _ _ Hr)). reflexivity.
  - intros name' w0 Ho Hn Hl. unfold CreateProducer.
    rewrite (bind_Returned _ _ _ _ _ Ho). cbv beta iota.
    rewrite (bind_Returned _ _ _ _ _ Hn). cbv beta iota.
    unfold listenToSchemaUpdates at 1. unfold mbind, Go_bind.
    destruct (relayListen (conn w0) stationName) as [err subs].
    simpl in Hl. subst err. eexists. split; reflexivity.
Qed.

End MoreOptions.

(** ** The creation response, once more *)

Section MoreResponses.
Context `{Ext : Externals}.

Lemma handleCreationResp_ok (p : Producer.t) (resp : list byte)
    (cr : createProducerResp.t) (sub : stationUpdateSub) (w : World) :
  json_Unmarshal resp = (cr, None) ->
  createProducerResp.Err cr = EmptyString ->
  stationUpdatesSubs (conn w) !! Producer.stationName p = Some sub ->
  handleCreationResp p resp w =
    (Returned None,
     set_conn
       (set_subs
          (<[Producer.stationName p :=
               {| schemaUpdateCh :=
                    schemaUpdateCh sub ++
                    [{| SchemaUpdate.UpdateType := SchemaUpdateTypeInit;
                        SchemaUpdate.Init := createProducerResp.SchemaUpdateInit cr |}] |}]>
             (stationUpdatesSubs (conn w))) (conn w)) w).
Proof.
  intros Hj He Hsub. unfold handleCreationResp. rewrite Hj.
  destruct (decide (createProducerResp.Err cr <> EmptyString)) as [N|_];
    [contradiction|].
  unfold chan_send. go_step. now rewrite Hsub.
Qed.

(** X18.  What a returned [handleCreationResp] has done can be read off its
    result: if it returned an error, whether of the decoder or of the
    broker, the world is as before and nothing was sent on any channel; if
    it returned nil, the station had a relay entry and its channel got the
    Init event of the response as its last element. *)
Theorem handleCreationResp_result (p : Producer.t) (resp : list byte)
    (w w' : World) (err : error) :
  handleCreationResp p resp w = (Returned err, w') ->
  match err with
  | Some _ => w' = w
  | None =>
      createProducerResp.Err (fst (json_Unmarshal resp)) = EmptyString /\
      exists sub : stationUpdateSub,
        stationUpdatesSubs (conn w) !! Producer.stationName p = Some sub /\
        stationUpdatesSubs (conn w') !! Producer.stationName p =
          Some {| schemaUpdateCh :=
                    schemaUpdateCh sub ++
                    [{| SchemaUpdate.UpdateType := 1;
                        SchemaUpdate.Init :=
                          createProducerResp.SchemaUpdateInit
                            (fst (json_Unmarshal resp)) |}] |}
  end.
Proof.
  intros H. unfold handleCreationResp in H.
  destruct (json_Unmarshal resp) as [cr [e|]] eqn:Hj.
  - unfold mret, Go_ret in H. inversion H. reflexivity.
  - destruct (decide (createProducerResp.Err cr <> EmptyString)) as [N|N].
    + unfold mret, Go_ret in H. inversion H. reflexivity.
    + assert (He : createProducerResp.Err cr = EmptyString).
      { destruct (decide (createProducerResp.Err cr = EmptyString)); [assumption|].
        contradiction. }
      unfold chan_send, mbind, Go_bind, mret, Go_ret in H.
      destruct (stationUpdatesSubs (conn w) !! Producer.stationName p)
        as [sub|] eqn:Hsub; [|discriminate H].
      inversion H. subst. simpl. split; [exact He|].
      exists sub. split; [reflexivity|]. simpl. apply lookup_insert_eq.
Qed.

(** X19.  The responses of two creations on the same station are put on
    the channel of the station in the order in which they are handled:
    after both, the channel holds the events it held, then the Init event
    of the first response, then that of the second. *)
Theorem handleCreationResp_in_order (p1 p2 : Producer.t) (resp1 resp2 : list byte)
    (cr1 cr2 : createProducerResp.t) (sub : stationUpdateSub) (w : World) :
  Producer.stationName p1 = Producer.stationName p2 ->
  json_Unmarshal resp1 = (cr1, None) ->
  createProducerResp.Err cr1 = EmptyString ->
  json_Unmarshal resp2 = (cr2, None) ->
  createProducerResp.Err cr2 = EmptyString ->
  stationUpdatesSubs (conn w) !! Producer.stationName p1 = Some sub ->
  exists w' : World,
    (handleCreationResp p1 resp1 ≫= fun _ => handleCreationResp p2 resp2) w =
      (Returned None, w') /\
    stationUpdatesSubs (conn w') !! Producer.stationName p1 =
      Some {| schemaUpdateCh :=
                schemaUpdateCh sub ++
                [{| SchemaUpdate.UpdateType := 1;
                    SchemaUpdate.Init := createProducerResp.SchemaUpdateInit cr1 |};
                 {| SchemaUpdate.UpdateType := 1;
                    SchemaUpdate.Init := createProducerResp.SchemaUpdateInit cr2 |}] |}.
Proof.
  intros Hst Hj1 He1 Hj2 He2 Hsub.
  rewrite (bind_Returned _ _ _ _ _ (handleCreationResp_ok p1 resp1 cr1 sub w Hj1 He1 Hsub)).
  rewrite (handleCreationResp_ok p2 resp2 cr2
             {| schemaUpdateCh :=
                  schemaUpdateCh sub ++
                  [{| SchemaUpdate.UpdateType := SchemaUpdateTypeInit;
                      SchemaUpdate.Init := createProducerResp.SchemaUpdateInit cr1 |}] |}
             _ Hj2 He2).
  - eexists. split; [reflexivity|]. simpl. rewrite <- Hst.
    rewrite lookup_insert_eq. simpl. now rewrite <- app_assoc.
  - simpl. rewrite <- Hst. apply lookup_insert_eq.
Qed.

End MoreResponses.

(** ** The further properties on the example broker *)

Lemma produce_schema_lookup_error_witness :
  exists w' : World,
    @produce demoOk (demoOpts (AnyBytes [x68; x69]) false) demoGhostProducer demoWorld
      = (Returned (Some "station subscription doesn't exist"), w') /\
    conn w' = conn demoWorld.
Proof.
  apply (@produce_schema_lookup_error demoOk (demoOpts (AnyBytes [x68; x69]) false)
           demoGhostProducer demoWorld 1%positive EmptyString
           "station subscription doesn't exist" eq_refl eq_refl).
Defined.

Lemma produce_with_active_schema_witness :
  (exists w' : World,
     @produce demoWithSchema (demoOpts (AnyBytes [x68; x69]) false) demoProducer demoWorld
       = (Returned (Some "schema validation failed"), w') /\
     conn w' = conn demoWorld) /\
  exists (header : gmap string (list string)) (d : Duration),
    brokerConn (conn (snd (@produce demoWithSchema
                             (demoOpts (AnyStruct "Order" [x01; x02]) false)
                             demoProducer demoWorld))) =
      [CallPublish {| Msg.Header := header; Msg.Subject := "orders.final";
                      Msg.Data := [x01; x02] |} d].
Proof.
  split.
  - destruct (@produce_with_active_schema demoWithSchema
                (demoOpts (AnyBytes [x68; x69]) false) demoProducer demoWorld
                1%positive "protobuf" [] (Some "schema validation failed")
                eq_refl eq_refl ltac:(discriminate) eq_refl) as [H _].
    apply (H "schema validation failed" eq_refl).
  - destruct (@produce_with_active_schema demoWithSchema
                (demoOpts (AnyStruct "Order" [x01; x02]) false) demoProducer demoWorld
                1%positive "protobuf" [x01; x02] None
                eq_refl eq_refl ltac:(discriminate) eq_refl) as [_ H].
    apply (H eq_refl).
Defined.

Lemma Produce_bytes_without_options_witness :
  fst (@Produce demoOk demoProducer (AnyBytes [x68; x69]) [] demoWorld) = Returned None /\
  brokerConn (conn (snd (@Produce demoOk demoProducer (AnyBytes [x68; x69]) []
                           demoWorld))) =
    [CallPublish
       {| Msg.Header := <["$memphis_producedBy" := ["p1"]]>
                          (<["$memphis_connectionId" := ["conn-1"]]> ∅);
          Msg.Subject := "orders.final";
          Msg.Data := [x68; x69] |} 15000000000].
Proof.
  destruct (@Produce_bytes_without_options demoOk demoProducer [x68; x69] demoWorld
              (demo_no_schema ([], None) demoAccepted None (AckOk, None)))
    as [H1 H2].
  split; [exact H2 | exact H1].
Defined.

Lemma produce_twice_restamps_witness :
  maps (snd (@produce demoOk (demoOpts (AnyBytes [x68]) false) demoOtherProducer
               (snd (@produce demoOk (demoOpts (AnyBytes [x68]) false) demoProducer
                       demoWorld)))) !! 1%positive =
    Some (<["$memphis_producedBy" := ["p9"]]>
            (<["$memphis_connectionId" := ["conn-1"]]> {[ "trace" := ["t-7"] ]})).
Proof.
  destruct (@produce_twice_restamps demoOk
              (demoOpts (AnyBytes [x68]) false) (demoOpts (AnyBytes [x68]) false)
              demoProducer demoOtherProducer demoWorld
              (snd (@produce demoOk (demoOpts (AnyBytes [x68]) false) demoProducer
                      demoWorld))
              1%positive {[ "trace" := ["t-7"] ]} None
              eq_refl eq_refl eq_refl eq_refl) as [H _].
  exact H.
Defined.

Lemma produce_stall_wait_overflow_witness :
  exists d : Duration,
    brokerConn (conn (snd (@produce demoOk
                             {| ProduceOpts.Message := AnyBytes [x68];
                                ProduceOpts.AckWaitSec := 9223372037;
                                ProduceOpts.MsgHeaders :=
                                  {| Headers.MsgHeaders := Some 1%positive |};
                                ProduceOpts.AsyncProduce := false |}
                             demoProducer demoWorld))) =
      [CallPublish (@outgoing demoOk 1%positive demoProducer [x68] demoWorld) d] /\
    d < 0.
Proof.
  eexists.
  apply (@produce_stall_wait_overflow demoOk
           {| ProduceOpts.Message := AnyBytes [x68];
              ProduceOpts.AckWaitSec := 9223372037;
              ProduceOpts.MsgHeaders := {| Headers.MsgHeaders := Some 1%positive |};
              ProduceOpts.AsyncProduce := false |}
           demoProducer demoWorld 1%positive [x68] eq_refl eq_refl).
  simpl. lia.
Defined.

Lemma Produce_option_error_witness :
  exists w' : World,
    @Produce demoOk demoProducer (AnyBytes [x68])
      [Some (fun o => (o, Some "bad option"));
       Some (MsgHeaders {| Headers.MsgHeaders := Some 1%positive |})] demoWorld
      = (Returned (Some "bad option"), w') /\
    maps w' !! 1%positive = Some {[ "trace" := ["t-7"] ]}.
Proof.
  edestruct (@Produce_option_error demoOk demoProducer (AnyBytes [x68])
               [Some (fun o => (o, Some "bad option"));
                Some (MsgHeaders {| Headers.MsgHeaders := Some 1%positive |})]
               demoWorld) as (w' & H1 & _ & H3).
  - reflexivity.
  - exists w'. split; [exact H1|]. now apply H3.
Defined.

Lemma Produce_without_MsgHeaders_keeps_tables_witness :
  maps (snd (@Produce demoOk demoProducer (AnyBytes [x68])
               [Some (AckWaitSec 5); None; Some AsyncProduce] demoWorld)) !! 1%positive
    = Some {[ "trace" := ["t-7"] ]}.
Proof.
  eapply (@Produce_without_MsgHeaders_keeps_tables demoOk demoProducer (AnyBytes [x68])
            [Some (AckWaitSec 5); None; Some AsyncProduce] demoWorld).
  - reflexivity.
  - reflexivity.
  - reflexivity.
Defined.


Lemma CreateProducer_early_failures_witness :
  @CreateProducer demoOk "orders" "p2" [Some (fun o => (o, Some "bad option"))] demoWorld
    = (Returned (None, Some "bad option"), demoWorld) /\
  @CreateProducer demoOk "orders" "p2" [Some ProducerGenUniqueSuffix]
    (set_entropy [x00; x1f] demoWorld)
    = (Returned (None, Some "unexpected EOF"), set_entropy [x00; x1f] demoWorld) /\
  exists w1 : World,
    @CreateProducer demoDeaf "orders" "p2" [] demoWorld
      = (Returned (None, Some "nats: no responders"), w1) /\
    brokerConn (conn w1) = [CallListen "orders"].
Proof.
  split; [|split].
  - destruct (@CreateProducer_early_failures demoOk "orders" "p2"
                [Some (fun o => (o, Some "bad option"))] getDefaultProducerOpts
                demoWorld "bad option") as (H & _).
    apply H. reflexivity.
  - destruct (@CreateProducer_early_failures demoOk "orders" "p2"
                [Some ProducerGenUniqueSuffix]
                {| ProducerOpts.GenUniqueSuffix := true |}
                (set_entropy [x00; x1f] demoWorld) "unexpected EOF") as (_ & H & _).
    apply (H EmptyString); reflexivity.
  - destruct (@CreateProducer_early_failures demoDeaf "orders" "p2" []
                getDefaultProducerOpts demoWorld "nats: no responders")
      as (_ & _ & H).
    apply (H "p2" demoWorld); reflexivity.
Defined.

Lemma handleCreationResp_result_witness :
  snd (@handleCreationResp demoRejecting demoProducer [] demoWorld) = demoWorld /\
  exists sub : stationUpdateSub,
    stationUpdatesSubs (conn demoWorld) !! "orders" = Some sub /\
    stationUpdatesSubs
      (conn (snd (@handleCreationResp demoOk demoProducer [] demoWorld))) !! "orders" =
      Some {| schemaUpdateCh :=
                schemaUpdateCh sub ++
                [{| SchemaUpdate.UpdateType := 1; SchemaUpdate.Init := demoInit |}] |}.
Proof.
  split.
  - apply (@handleCreationResp_result demoRejecting demoProducer [] demoWorld
             (snd (@handleCreationResp demoRejecting demoProducer [] demoWorld))
             (Some "station does not exist") eq_refl).
  - destruct (@handleCreationResp_result demoOk demoProducer [] demoWorld
                (snd (@handleCreationResp demoOk demoProducer [] demoWorld))
                None eq_refl) as [_ H].
    exact H.
Defined.

Lemma handleCreationResp_in_order_witness :
  exists w' : World,
    (@handleCreationResp demoOk demoProducer [] ≫=
       fun _ => @handleCreationResp demoOk demoOtherProducer []) demoWorld
      = (Returned None, w') /\
    stationUpdatesSubs (conn w') !! "orders" =
      Some {| schemaUpdateCh :=
                [{| SchemaUpdate.UpdateType := 1; SchemaUpdate.Init := demoInit |};
                 {| SchemaUpdate.UpdateType := 1; SchemaUpdate.Init := demoInit |}] |}.
Proof.
  apply (@handleCreationResp_in_order demoOk demoProducer demoOtherProducer [] []
           (fst demoAccepted) (fst demoAccepted) {| schemaUpdateCh := [] |} demoWorld
           eq_refl eq_refl eq_refl eq_refl eq_refl eq_refl).
Defined.
